(** * Resume analyzer: a shallow embedding of [resume_analyzer.py]

    The development models the script, the class [ResumeAnalyzer] and
    the page around it, and checks the properties its specification
    states. It reads the script twice.

    - The first reading is over 8-bit characters: Python strings are
      [string]s, and the character classes ([\d], [\s], [\b],
      [str.lower], [str.title], [str.split]) are the ones Python uses on
      code points 0..127; a character above 127 is neither a letter, a
      digit nor a space. The properties stated over it speak of the
      results of the functions only: scores, sections, keywords and
      recommendations.
    - The second reading is over Unicode: a text is a list of code
      points, and what Python's Unicode database says of a code point
      ([str.isspace], [str.isalnum], [str.isdecimal], [str.lower],
      [str.title]) is a parameter of every function. The properties that
      speak of white space, of digits, of the matches of the patterns
      or of lower case are stated over it, for every database.
    - Python's [re] is a backtracking matcher (greedy quantifiers, ordered
      alternation, leftmost match) over the subset of the syntax that the
      patterns of the script use;
    - Python numbers are [int] (unbounded, [Z]) or [float] (IEEE 754
      binary64, the [spec_float] of the standard library with its
      round-to-nearest-even operations);
    - dictionaries that are iterated are association lists in insertion
      order, dictionaries with fixed keys are records. *)

From Stdlib Require Import ZArith QArith Qminmax List Bool Lia Permutation.
From Stdlib Require Import Strings.Ascii Strings.String.
From Stdlib Require Import Floats.SpecFloat.
Import ListNotations.

Local Close Scope Q_scope.
Local Open Scope nat_scope.
Local Open Scope string_scope.
Local Open Scope list_scope.

(** ** Python strings *)
Module PyStr.

Definition in_range (lo hi c : ascii) : bool :=
  Ascii.leb lo c && Ascii.leb c hi.

Definition is_upper (c : ascii) : bool := in_range "A" "Z" c.
Definition is_lower (c : ascii) : bool := in_range "a" "z" c.
Definition is_alpha (c : ascii) : bool := is_upper c || is_lower c.
Definition is_digit (c : ascii) : bool := in_range "0" "9" c.

(** [\w]: letters, digits and the underscore. *)
Definition is_word (c : ascii) : bool :=
  is_alpha c || is_digit c || Ascii.eqb c "_".

(** [str.isspace], also the class [\s]: tab, line feed, vertical tab,
    form feed, carriage return, the separators 28..31 and the space. *)
Definition is_space (c : ascii) : bool :=
  let n := N_of_ascii c in
  ((9 <=? n) && (n <=? 13) || (28 <=? n) && (n <=? 32))%N.

Definition to_lower (c : ascii) : ascii :=
  if is_upper c then ascii_of_N (N_of_ascii c + 32) else c.

Definition to_upper (c : ascii) : ascii :=
  if is_lower c then ascii_of_N (N_of_ascii c - 32) else c.

Fixpoint map_chars (f : ascii -> ascii) (s : string) : string :=
  match s with
  | EmptyString => EmptyString
  | String c s' => String (f c) (map_chars f s')
  end.

(** [s.lower()] *)
Definition lower (s : string) : string := map_chars to_lower s.

(** [sub in s] *)
Fixpoint contains (sub s : string) : bool :=
  String.prefix sub s ||
  match s with
  | EmptyString => false
  | String _ s' => contains sub s'
  end.

(** [len(s.split())]: the number of maximal runs of non-space
    characters; [in_word] tells whether the previous character belongs
    to a run that is already counted. *)
Fixpoint count_words_from (in_word : bool) (s : string) : nat :=
  match s with
  | EmptyString => 0
  | String c s' =>
      if is_space c then count_words_from false s'
      else if in_word then count_words_from true s'
      else S (count_words_from true s')
  end.

Definition count_words (s : string) : nat := count_words_from false s.

(** [s.replace(old, new)] for one-character [old] and [new], the only
    way the script calls it. *)
Definition replace (old new : ascii) (s : string) : string :=
  map_chars (fun c => if Ascii.eqb c old then new else c) s.

(** [s.title()]: a letter that follows a letter is lower-cased, any
    other letter is upper-cased. *)
Fixpoint title_from (prev_cased : bool) (s : string) : string :=
  match s with
  | EmptyString => EmptyString
  | String c s' =>
      String (if is_alpha c then (if prev_cased then to_lower c else to_upper c) else c)
             (title_from (is_alpha c) s')
  end.

Definition title (s : string) : string := title_from false s.

(** [sep.join(l)] *)
Definition join (sep : string) (l : list string) : string := String.concat sep l.

(** [x in l] for a list of strings *)
Definition mem (x : string) (l : list string) : bool :=
  existsb (String.eqb x) l.

End PyStr.

(** ** Python regular expressions

    The patterns of the script use literals, character sets, [\d], [\s],
    [\b], concatenation, alternation, the greedy quantifiers [?], [+],
    [{m,n}] and [{m,}] (applied to one-character items, or [?] to a
    group), and at most one capturing group per pattern. *)
Module Re.
Import PyStr.

Inductive cset_item : Type :=
| CChar (c : ascii)            (* a single character *)
| CRange (lo hi : ascii)       (* lo-hi *)
| CDigit                       (* \d *)
| CSpace.                      (* \s *)

Definition cset := list cset_item.

Definition item_mem (c : ascii) (i : cset_item) : bool :=
  match i with
  | CChar a => Ascii.eqb c a
  | CRange lo hi => in_range lo hi c
  | CDigit => is_digit c
  | CSpace => is_space c
  end.

Definition cset_mem (cs : cset) (c : ascii) : bool := existsb (item_mem c) cs.

Inductive regex : Type :=
| Lit (l : string)                            (* literal text *)
| Cls (cs : cset)                             (* [...] or \d *)
| WordB                                       (* \b *)
| Seq (r1 r2 : regex)                         (* r1 r2 *)
| Alt (r1 r2 : regex)                         (* r1|r2 *)
| Opt (r : regex)                             (* r? *)
| Rep (cs : cset) (lo : nat) (hi : option nat) (* [...]{lo,hi}; hi = None: no bound *)
| Grp (r : regex).                            (* ( r ), the capturing group 1 *)

Fixpoint groups (r : regex) : nat :=
  match r with
  | Lit _ | Cls _ | WordB | Rep _ _ _ => 0
  | Seq a b | Alt a b => groups a + groups b
  | Opt a => groups a
  | Grp a => S (groups a)
  end.

(** The matcher runs on the text that is left, remembers the character
    before it (for [\b]) and the text captured by the group, and is
    written in continuation-passing style: [k] matches the rest of the
    pattern, and a [None] from it makes the matcher try its next
    alternative, as the backtracking of [re] does. *)
Section Matcher.
Context {R : Type}.

Definition cont := option ascii -> string -> option string -> option R.

Definition head_char (s : string) : option ascii :=
  match s with
  | EmptyString => None
  | String c _ => Some c
  end.

Definition is_word_opt (c : option ascii) : bool :=
  match c with
  | Some a => is_word a
  | None => false
  end.

(** Consume the literal [l] at the head of [s]. *)
Fixpoint match_lit (l : string) (prev : option ascii) (s : string)
  : option (option ascii * string) :=
  match l with
  | EmptyString => Some (prev, s)
  | String a l' =>
      match s with
      | EmptyString => None
      | String c s' => if Ascii.eqb a c then match_lit l' (Some c) s' else None
      end
  end.

(** Greedy bounded repetition of a character set: [n] characters are
    already taken; take one more when allowed and possible, and fall
    back to stopping here when the rest of the pattern fails. *)
Fixpoint match_rep (cs : cset) (lo : nat) (hi : option nat) (n : nat)
         (prev : option ascii) (s : string)
         (k : option ascii -> string -> option R) : option R :=
  let stop := if (lo <=? n)%nat then k prev s else None in
  let may_take := match hi with Some h => (n <? h)%nat | None => true end in
  match s with
  | EmptyString => stop
  | String c s' =>
      if may_take && cset_mem cs c then
        match match_rep cs lo hi (S n) (Some c) s' k with
        | Some r => Some r
        | None => stop
        end
      else stop
  end.

Fixpoint rmatch (r : regex) (prev : option ascii) (s : string)
         (g : option string) (k : cont) : option R :=
  match r with
  | Lit l =>
      match match_lit l prev s with
      | Some (prev', s') => k prev' s' g
      | None => None
      end
  | Cls cs =>
      match s with
      | EmptyString => None
      | String c s' => if cset_mem cs c then k (Some c) s' g else None
      end
  | WordB =>
      if xorb (is_word_opt prev) (is_word_opt (head_char s)) then k prev s g else None
  | Seq a b => rmatch a prev s g (fun prev' s' g' => rmatch b prev' s' g' k)
  | Alt a b =>
      match rmatch a prev s g k with
      | Some x => Some x
      | None => rmatch b prev s g k
      end
  | Opt a =>
      match rmatch a prev s g k with
      | Some x => Some x
      | None => k prev s g
      end
  | Rep cs lo hi => match_rep cs lo hi 0 prev s (fun prev' s' => k prev' s' g)
  | Grp a =>
      rmatch a prev s g
        (fun prev' s' _ =>
           k prev' s' (Some (substring 0 (String.length s - String.length s') s)))
  end.
End Matcher.

(** A match object: where the match starts, the matched text
    ([m.group(0)]) and the text of group 1 ([None] when the group took
    no part in the match). *)
Record match_obj : Type := MkMatch {
  m_start : nat;
  m_text : string;
  m_group : option string
}.

(** [pattern.match] at the position whose left neighbour is [prev]:
    the length of the match and the group. *)
Definition match_here (r : regex) (prev : option ascii) (s : string)
  : option (nat * option string) :=
  rmatch r prev s None
    (fun _ s' g => Some (String.length s - String.length s', g)).

(** [re.search]: the leftmost match. *)
Fixpoint search_from (r : regex) (pos : nat) (prev : option ascii) (s : string)
  : option match_obj :=
  match match_here r prev s with
  | Some (len, g) => Some (MkMatch pos (substring 0 len s) g)
  | None =>
      match s with
      | EmptyString => None
      | String c s' => search_from r (S pos) (Some c) s'
      end
  end.

Definition search (r : regex) (text : string) : option match_obj :=
  search_from r 0 None text.

(** [re.finditer]: the non-overlapping matches from left to right.
    [skip] counts the characters of the previous match that are still
    to be passed; after an empty match the scan moves on by one
    character. *)
Fixpoint finditer_from (r : regex) (skip pos : nat) (prev : option ascii) (s : string)
  : list match_obj :=
  match skip with
  | S n =>
      match s with
      | EmptyString => []
      | String c s' => finditer_from r n (S pos) (Some c) s'
      end
  | O =>
      match match_here r prev s with
      | Some (len, g) =>
          MkMatch pos (substring 0 len s) g ::
          match s with
          | EmptyString => []
          | String c s' => finditer_from r (len - 1) (S pos) (Some c) s'
          end
      | None =>
          match s with
          | EmptyString => []
          | String c s' => finditer_from r 0 (S pos) (Some c) s'
          end
      end
  end.

Definition finditer (r : regex) (text : string) : list match_obj :=
  finditer_from r 0 0 None text.

(** What [re.findall] lists for a match: the whole match when the
    pattern has no group, and the text of the group, empty when the
    group took no part, when it has one. *)
Definition group_or_empty (m : match_obj) : string :=
  match m_group m with
  | Some g => g
  | None => ""
  end.

Definition findall_item (r : regex) (m : match_obj) : string :=
  match groups r with
  | O => m_text m
  | S _ => group_or_empty m
  end.

Definition findall (r : regex) (text : string) : list string :=
  map (findall_item r) (finditer r text).

End Re.

(** ** Python numbers *)
Module PyNum.

(** binary64 *)
Definition prec : Z := 53.
Definition emax : Z := 1024.

Definition float : Type := spec_float.

Definition fadd : float -> float -> float := SFadd prec emax.
Definition fsub : float -> float -> float := SFsub prec emax.
Definition fmul : float -> float -> float := SFmul prec emax.
Definition fdiv : float -> float -> float := SFdiv prec emax.
Definition fltb : float -> float -> bool := SFltb.
Definition fleb : float -> float -> bool := SFleb.
Definition feqb : float -> float -> bool := SFeqb.
Definition fabs : float -> float := SFabs.

(** [float(n)] for an [int] [n]: the nearest double, ties to even. *)
Definition of_int (n : Z) : float := binary_normalize prec emax n 0 false.

(** The double nearest to the fraction [num/den]; the operands of the
    division are the exact integers, so the quotient is rounded once. *)
Definition nearest_ratio (num : Z) (den : positive) : float :=
  match num with
  | Z0 => S754_zero false
  | Zpos n => fdiv (S754_finite false n 0) (S754_finite false den 0)
  | Zneg n => fdiv (S754_finite true n 0) (S754_finite false den 0)
  end.

(** The double nearest to a rational number, the value that Python
    gives to a decimal literal or to the decimal string of [round]. *)
Definition of_Q (q : Q) : float := nearest_ratio (Qnum q) (Qden q).

(** The integer nearest to [num/den], ties to the even one. *)
Definition round_half_even (num : Z) (den : positive) : Z :=
  let q := (num / Zpos den)%Z in
  let r := (num mod Zpos den)%Z in
  match (2 * r ?= Zpos den)%Z with
  | Lt => q
  | Gt => (q + 1)%Z
  | Eq => if Z.even q then q else (q + 1)%Z
  end.

(** [round(x, 2)] on a float. CPython prints the exact binary value of
    [x] with two correctly rounded decimals (ties to even) and reads
    the decimal string back as the nearest double; zeros, infinities
    and NaN come back unchanged, and so does every double without a
    fractional bit. The sign of [x] is kept when the decimals round to
    zero. *)
Definition float_round2 (x : float) : float :=
  match x with
  | S754_finite s m e =>
      match e with
      | Zneg k =>
          let h := round_half_even (Zpos m * 100) (2 ^ k)%positive in
          match h with
          | Z0 => S754_zero s
          | _ => nearest_ratio (if s then Z.opp h else h) 100
          end
      | _ => x
      end
  | _ => x
  end.

Inductive pynum : Type :=
| PInt (n : Z)
| PFloat (x : float).

Definition to_float (v : pynum) : float :=
  match v with
  | PInt n => of_int n
  | PFloat x => x
  end.

(** [a + b] *)
Definition py_add (a b : pynum) : pynum :=
  match a, b with
  | PInt x, PInt y => PInt (x + y)
  | _, _ => PFloat (fadd (to_float a) (to_float b))
  end.

(** [a * b] *)
Definition py_mul (a b : pynum) : pynum :=
  match a, b with
  | PInt x, PInt y => PInt (x * y)
  | _, _ => PFloat (fmul (to_float a) (to_float b))
  end.

(** [a / d] for a positive [int] [d]: true division always gives a
    float. Every division of the script has such a divisor (the
    literals 5 and 3, and the length of a list that was tested to be
    non-empty), so [ZeroDivisionError] has no place in the model. The
    integers divided here are far below 2^53, where converting both
    operands first gives the correctly rounded quotient of int/int. *)
Definition py_truediv (a : pynum) (d : positive) : pynum :=
  PFloat (fdiv (to_float a) (of_int (Zpos d))).

(** [a < b], [a <= b], [a == b] *)
Definition py_lt (a b : pynum) : bool :=
  match a, b with
  | PInt x, PInt y => (x <? y)%Z
  | _, _ => fltb (to_float a) (to_float b)
  end.

Definition py_le (a b : pynum) : bool :=
  match a, b with
  | PInt x, PInt y => (x <=? y)%Z
  | _, _ => fleb (to_float a) (to_float b)
  end.

Definition py_eq (a b : pynum) : bool :=
  match a, b with
  | PInt x, PInt y => (x =? y)%Z
  | _, _ => feqb (to_float a) (to_float b)
  end.

(** [min(a, b)]: the second argument only when it is strictly less. *)
Definition py_min (a b : pynum) : pynum :=
  if py_lt b a then b else a.

(** [round(v, 2)]: an [int] is returned as it is. *)
Definition py_round2 (v : pynum) : pynum :=
  match v with
  | PInt n => PInt n
  | PFloat x => PFloat (float_round2 x)
  end.

(** [sum(items)], from the start value [0]. Up to CPython 3.11 the
    items are added from left to right; from 3.12 on, once the running
    total is a float, float items are added with Neumaier's
    compensation and the compensation is added at the end. *)
Inductive sum_impl : Type := LeftToRight | Compensated.

Definition sum_plain (items : list pynum) : pynum :=
  fold_left py_add items (PInt 0).

Definition is_finite (x : float) : bool :=
  match x with
  | S754_zero _ | S754_finite _ _ _ => true
  | _ => false
  end.

Definition is_nonzero (x : float) : bool := negb (feqb x (S754_zero false)).

Fixpoint sum_float_loop (f c : float) (items : list pynum) : pynum :=
  match items with
  | [] => PFloat (if is_nonzero c && is_finite c then fadd f c else f)
  | PFloat x :: tl =>
      let t := fadd f x in
      let c' := if fleb (fabs x) (fabs f)
                then fadd c (fadd (fsub f t) x)
                else fadd c (fadd (fsub x t) f) in
      sum_float_loop t c' tl
  | PInt n :: tl => sum_float_loop (fadd f (of_int n)) c tl
  end.

Fixpoint sum_int_loop (i : Z) (items : list pynum) : pynum :=
  match items with
  | [] => PInt i
  | PInt n :: tl => sum_int_loop (i + n) tl
  | PFloat x :: tl => sum_float_loop (fadd (of_int i) x) (S754_zero false) tl
  end.

Definition py_sum (impl : sum_impl) (items : list pynum) : pynum :=
  match impl with
  | LeftToRight => sum_plain items
  | Compensated => sum_int_loop 0 items
  end.

End PyNum.

(** ** The class [ResumeAnalyzer] *)
Module ResumeAnalyzer.
Import PyStr Re PyNum.

Notation "a ;; b" := (Seq a b) (at level 61, right associativity).

(** [self.keyword_categories] *)
Definition keyword_categories : list (string * list string) :=
  [ ("technical_skills",
     ["python"; "java"; "javascript"; "sql"; "html"; "css"; "react"; "git"; "aws"]);
    ("soft_skills",
     ["communication"; "leadership"; "teamwork"; "problem solving"; "time management"]);
    ("action_verbs",
     ["developed"; "managed"; "implemented"; "created"; "led"; "analyzed"]) ].

(** The report of one keyword category. *)
Record keyword_score : Type := MkKeywordScore {
  coverage_percentage : pynum;
  found_keywords : list string;
  missing_keywords : list string
}.

(** [analysis['contact_info']] *)
Record contact : Type := MkContact {
  email : option string;
  phone : option string
}.

(** The dictionary [analysis]; [overall_score] is [None] as long as the
    key is not set. *)
Record analysis : Type := MkAnalysis {
  word_count : nat;
  sections_found : list string;
  missing_sections : list string;
  keyword_scores : list (string * keyword_score);
  contact_info : contact;
  overall_score : option pynum
}.

(** [section_patterns] of [detect_sections], in the order of the
    dictionary. *)
Definition section_patterns : list (string * regex) :=
  [ ("contact_info",
     Grp (Alt (Lit "contact") (Alt (Lit "phone") (Alt (Lit "email") (Lit "address")))));
    ("experience",
     Grp (Alt (Lit "experience") (Alt (Lit "work history") (Lit "employment"))));
    ("education", Grp (Alt (Lit "education") (Lit "academic")));
    ("skills", Grp (Alt (Lit "skills") (Lit "technical skills")));
    ("projects", Grp (Alt (Lit "projects") (Lit "portfolio"))) ].

Definition is_some {A : Type} (o : option A) : bool :=
  match o with
  | Some _ => true
  | None => false
  end.

Definition detect_sections (text : string) : list string :=
  let text_lower := lower text in
  map fst (filter (fun sp => is_some (search (snd sp) text_lower)) section_patterns).

Definition important_sections : list string :=
  ["contact_info"; "experience"; "education"; "skills"].

Definition find_missing_sections (found_sections : list string) : list string :=
  filter (fun section => negb (mem section found_sections)) important_sections.

(** The body of the loop of [analyze_keywords] for one category. *)
Definition score_category (text_lower : string) (keywords : list string) : keyword_score :=
  let found := filter (fun kw => contains kw text_lower) keywords in
  let coverage :=
    match keywords with
    | [] => PInt 0
    | _ :: tl =>
        py_mul (py_truediv (PInt (Z.of_nat (List.length found)))
                           (Pos.of_succ_nat (List.length tl)))
               (PInt 100)
    end in
  {| coverage_percentage := py_round2 coverage;
     found_keywords := found;
     missing_keywords := filter (fun kw => negb (mem kw found)) keywords |}.

Definition analyze_keywords (text : string) : list (string * keyword_score) :=
  let text_lower := lower text in
  map (fun ck => (fst ck, score_category text_lower (snd ck))) keyword_categories.

(** [\b[A-Za-z0-9._%+-]+@[A-Za-z0-9.-]+\.[A-Z|a-z]{2,}\b] *)
Definition email_pattern : regex :=
  WordB ;;
  Rep [CRange "A" "Z"; CRange "a" "z"; CRange "0" "9";
       CChar "."; CChar "_"; CChar "%"; CChar "+"; CChar "-"] 1 None ;;
  Lit "@" ;;
  Rep [CRange "A" "Z"; CRange "a" "z"; CRange "0" "9"; CChar "."; CChar "-"] 1 None ;;
  Lit "." ;;
  Rep [CRange "A" "Z"; CChar "|"; CRange "a" "z"] 2 None ;;
  WordB.

(** [[-.\s]] *)
Definition separator : cset := [CChar "-"; CChar "."; CSpace].

(** [(\+?\d{1,3}[-.\s]?)?\(?\d{3}\)?[-.\s]?\d{3}[-.\s]?\d{4}] *)
Definition phone_pattern : regex :=
  Opt (Grp (Opt (Lit "+") ;; Rep [CDigit] 1 (Some 3) ;; Opt (Cls separator))) ;;
  Opt (Lit "(") ;;
  Rep [CDigit] 3 (Some 3) ;;
  Opt (Lit ")") ;;
  Opt (Cls separator) ;;
  Rep [CDigit] 3 (Some 3) ;;
  Opt (Cls separator) ;;
  Rep [CDigit] 4 (Some 4).

(** [l[0] if l else None] *)
Definition first_or_none (l : list string) : option string :=
  match l with
  | [] => None
  | x :: _ => Some x
  end.

Definition extract_contact_info (text : string) : contact :=
  let emails := findall email_pattern text in
  let phones := findall phone_pattern text in
  {| email := first_or_none emails; phone := first_or_none phones |}.

(** Truth value of a contact field: [None] and the empty string are
    false. *)
Definition truthy (v : option string) : bool :=
  match v with
  | None => false
  | Some s => negb (String.eqb s "")
  end.

(** [10 if any(analysis['contact_info'].values()) else 0] *)
Definition contact_score (c : contact) : pynum :=
  if existsb truthy [email c; phone c] then PInt 10 else PInt 0.

(** The literal [0.4]. *)
Definition lit_0_4 : pynum := PFloat (of_Q (4 # 10)).

(** [impl] is the summation of the interpreter that runs the script. *)
Definition calculate_overall_score (impl : sum_impl) (a : analysis) : pynum :=
  let score :=
    py_mul (py_truediv (PInt (Z.of_nat (List.length (sections_found a)))) 5) (PInt 30) in
  let keyword_score :=
    py_mul (py_truediv
              (py_sum impl (map (fun cat => coverage_percentage (snd cat)) (keyword_scores a)))
              3)
           lit_0_4 in
  let score := py_add score keyword_score in
  let score := py_add score (contact_score (contact_info a)) in
  py_round2 (py_min (PInt 100) score).

Definition analyze_resume_content (impl : sum_impl) (text : string) : analysis :=
  let sections := detect_sections text in
  let a :=
    {| word_count := count_words text;
       sections_found := sections;
       missing_sections := find_missing_sections sections;
       keyword_scores := analyze_keywords text;
       contact_info := extract_contact_info text;
       overall_score := None |} in
  {| word_count := word_count a;
     sections_found := sections_found a;
     missing_sections := missing_sections a;
     keyword_scores := keyword_scores a;
     contact_info := contact_info a;
     overall_score := Some (calculate_overall_score impl a) |}.

(** [generate_recommendations]: [recommendations] is the list under
    construction, [append] adds at its end. *)
Definition append (recommendations : list string) (line : string) : list string :=
  recommendations ++ [line].

Definition section_line (missing_section : string) : string :=
  "Add '" ++ title (replace "_" " " missing_section) ++ "' section".

Definition keyword_line (category : string) (score : keyword_score) : string :=
  let missing := join ", " (firstn 3 (missing_keywords score)) in
  "Add more " ++ replace "_" " " category ++ " like: " ++ missing.

Definition generate_recommendations (a : analysis) : list string :=
  let recommendations := [] in
  let recommendations :=
    fold_left (fun recs missing_section => append recs (section_line missing_section))
              (missing_sections a) recommendations in
  let recommendations :=
    fold_left (fun recs cs =>
                 if py_lt (coverage_percentage (snd cs)) (PInt 50)
                 then append recs (keyword_line (fst cs) (snd cs))
                 else recs)
              (keyword_scores a) recommendations in
  let recommendations :=
    if negb (truthy (email (contact_info a)))
    then append recommendations "Add professional email address"
    else recommendations in
  let recommendations :=
    if negb (truthy (phone (contact_info a)))
    then append recommendations "Add phone number"
    else recommendations in
  recommendations.

End ResumeAnalyzer.

(** ** The scoring rule in the words of the specification

    The specification gives the score and the coverage percentages as
    formulas over the numbers; they are read here in exact rational
    arithmetic, to be compared with the floating-point computation of
    the script. *)
Module Spec.
Import PyNum ResumeAnalyzer.
Local Open Scope Q_scope.

(** "rounded to 2 decimals" *)
Definition round2 (q : Q) : Q :=
  round_half_even (Qnum q * 100) (Qden q) # 100.

(** "clamped to [lo, hi]" *)
Definition clamp (lo hi q : Q) : Q := Qmax lo (Qmin hi q).

Definition of_nat (n : nat) : Q := inject_Z (Z.of_nat n).

(** "(count of keywords present / category size) x 100, rounded to 2
    decimals" *)
Definition coverage (found size : nat) : Q :=
  round2 (of_nat found / of_nat size * 100).

Definition total (l : list Q) : Q := fold_right Qplus 0 l.

(** "average of the 3 category coverage percentages" *)
Definition average (l : list Q) : Q := total l / of_nat (List.length l).

(** "non-empty" contact field *)
Definition non_empty (field : option string) : bool :=
  match field with
  | Some s => negb (String.eqb s "")
  | None => false
  end.

(** "(detected-section-count / 5) x 30 + (average of the 3 category
    coverage percentages) x 0.4 + (10 if either contact field is
    non-empty else 0), clamped to [0, 100], rounded to 2 decimals" *)
Definition overall_score (sections : nat) (coverages : list Q) (c : contact) : Q :=
  round2
    (clamp 0 100
       (of_nat sections / 5 * 30
        + average coverages * (4 # 10)
        + (if non_empty (email c) || non_empty (phone c) then 10 else 0))).

End Spec.

(** ** Auxiliary definitions of the proofs *)
Module Aux.
Import PyStr Re PyNum ResumeAnalyzer.

(** The exact value of a number; infinities and NaN, which no report
    of the analyzer contains, are given the value 0. *)
Definition float_value (x : float) : Q :=
  match x with
  | S754_finite s m e =>
      let n := if s then Zneg m else Zpos m in
      match e with
      | Z0 => inject_Z n
      | Zpos k => inject_Z (n * Zpos (2 ^ k))
      | Zneg k => Qmake n (2 ^ k)
      end
  | _ => 0%Q
  end.

Definition value (v : pynum) : Q :=
  match v with
  | PInt n => inject_Z n
  | PFloat x => float_value x
  end.

(** Structural equality of floats and numbers, as a boolean. *)
Definition float_same (x y : float) : bool :=
  match x, y with
  | S754_zero a, S754_zero b => Bool.eqb a b
  | S754_infinity a, S754_infinity b => Bool.eqb a b
  | S754_nan, S754_nan => true
  | S754_finite a m e, S754_finite b n f => Bool.eqb a b && Pos.eqb m n && Z.eqb e f
  | _, _ => false
  end.

Definition pynum_same (a b : pynum) : bool :=
  match a, b with
  | PInt x, PInt y => Z.eqb x y
  | PFloat x, PFloat y => float_same x y
  | _, _ => false
  end.

(** The coverage percentage of a category of [size] keywords of which
    [found] are in the text, as [analyze_keywords] computes it. *)
Definition coverage_of_count (found size : nat) : pynum :=
  py_round2
    match size with
    | O => PInt 0
    | S n => py_mul (py_truediv (PInt (Z.of_nat found)) (Pos.of_succ_nat n)) (PInt 100)
    end.

(** A report with [n] detected sections, the coverage percentages
    [c1], [c2] and [c3] and the contact fields [c]: the fields that
    the score reads. *)
Definition report_of (n : nat) (c1 c2 c3 : pynum) (c : contact) : analysis :=
  {| word_count := 0;
     sections_found := repeat "" n;
     missing_sections := [];
     keyword_scores :=
       [ ("technical_skills", MkKeywordScore c1 [] []);
         ("soft_skills", MkKeywordScore c2 [] []);
         ("action_verbs", MkKeywordScore c3 [] []) ];
     contact_info := c;
     overall_score := None |}.

(** The score that the specification gives to a report. *)
Definition spec_score (a : analysis) : Q :=
  Spec.overall_score
    (List.length (sections_found a))
    (map (fun cat => value (coverage_percentage (snd cat))) (keyword_scores a))
    (contact_info a).

(** The two contact records that matter for the score. *)
Definition contact_of_bool (b : bool) : contact :=
  if b then MkContact (Some "x") None else MkContact None None.

(** The coverage percentages that a category of [size] keywords can
    have. *)
Definition coverages (size : nat) : list pynum :=
  map (fun found => coverage_of_count found size) (seq 0 (S size)).

(** Every combination of a number of sections, three coverage
    percentages and the presence of a contact field. *)
Definition all_cases : list (nat * pynum * pynum * pynum * bool) :=
  flat_map (fun c1 =>
  flat_map (fun c2 =>
  flat_map (fun c3 =>
  flat_map (fun n =>
    [(n, c1, c2, c3, true); (n, c1, c2, c3, false)])
    (seq 0 6)) (coverages 6)) (coverages 5)) (coverages 9).

(** What the proofs check in each case: the script's score is the
    double nearest to the score of the specification, under both
    summations, and it lies between 0 and 100. *)
Definition check_case (x : nat * pynum * pynum * pynum * bool) : bool :=
  let '(n, c1, c2, c3, b) := x in
  let a := report_of n c1 c2 c3 (contact_of_bool b) in
  let s := calculate_overall_score LeftToRight a in
  pynum_same s (PFloat (of_Q (spec_score a)))
  && pynum_same (calculate_overall_score Compensated a) s
  && py_le (PInt 0) s && py_le s (PInt 100).

Definition coverage_agrees (size found : nat) : bool :=
  pynum_same (coverage_of_count found size) (PFloat (of_Q (Spec.coverage found size))).

(** The score reads only these parts of a report: the number of
    detected sections, the coverage percentages and the contact
    points. *)
Definition score_core (impl : sum_impl) (n : nat) (covs : list pynum) (cs : pynum) : pynum :=
  py_round2
    (py_min (PInt 100)
       (py_add
          (py_add (py_mul (py_truediv (PInt (Z.of_nat n)) 5) (PInt 30))
                  (py_mul (py_truediv (py_sum impl covs) 3) lit_0_4))
          cs)).

(** [found] and [missing] split the vocabulary [keywords]: no keyword
    is in both, none is listed twice, and together they are the
    vocabulary. *)
Definition splits (keywords found missing : list string) : Prop :=
  (forall kw, In kw found -> ~ In kw missing)
  /\ NoDup found /\ NoDup missing
  /\ (forall kw, In kw keywords <-> In kw found \/ In kw missing)
  /\ Permutation (found ++ missing) keywords.

(** The text of the scenario of the specification. *)
Definition scenario_text : string :=
  "I have experience in Python and SQL. Contact: jane@example.com, 555-123-4567.".

(** A text with the four important section words, every keyword, an
    e-mail address and a phone number with a country code. *)
Definition complete_text : string :=
  "contact experience education skills python java javascript sql html css react git aws communication leadership teamwork problem solving time management developed managed implemented created led analyzed a@b.co +1 555-123-4567".

(** The detected sections that are important ones. *)
Definition detected_important (text : string) : list string :=
  filter (fun s => mem s important_sections) (detect_sections text).

End Aux.

(** ** The rest of the script: extraction of the text and the page *)
Module Extractor.
Import PyStr.

(** [s.lstrip()] *)
Fixpoint lstrip (s : string) : string :=
  match s with
  | EmptyString => EmptyString
  | String c s' => if is_space c then lstrip s' else s
  end.

(** [s.rstrip()] *)
Fixpoint rstrip (s : string) : string :=
  match s with
  | EmptyString => EmptyString
  | String c s' =>
      match rstrip s' with
      | EmptyString => if is_space c then EmptyString else String c EmptyString
      | String d r => String c (String d r)
      end
  end.

(** [s.strip()] *)
Definition strip (s : string) : string := rstrip (lstrip s).

(** The line feed. *)
Definition newline : string := String (ascii_of_nat 10) EmptyString.

(** What the script sees of an uploaded file: its declared type and what
    the three readers return for it, [None] when the reader raises an
    exception: the texts of the pages of [PyPDF2.PdfReader], the texts
    of the paragraphs of [docx.Document], and the bytes decoded as
    UTF-8. *)
Record uploaded_file : Type := MkFile {
  type : string;
  pdf_pages : option (list string);
  docx_paragraphs : option (list string);
  utf8_text : option string
}.

(** The loops [text += part + "\n"]. *)
Definition concat_lines (parts : list string) : string :=
  fold_left (fun text part => text ++ (part ++ newline))%string parts "".

(** [None] is an exception of a reader, which the function lets
    through. *)
Definition extract_text_from_file (uploaded_file : uploaded_file) : option string :=
  let text :=
    if String.eqb (type uploaded_file) "application/pdf" then
      option_map concat_lines (pdf_pages uploaded_file)
    else if String.eqb (type uploaded_file)
              "application/vnd.openxmlformats-officedocument.wordprocessingml.document" then
      option_map concat_lines (docx_paragraphs uploaded_file)
    else utf8_text uploaded_file in
  option_map strip text.

End Extractor.

(** ** The page: what happens when the button is pressed *)
Module Page.
Import PyStr PyNum ResumeAnalyzer Extractor.

(** The three cards of the overall score. *)
Inductive score_card : Type := Excellent | Good | NeedsImprovement.

(** [if score >= 80: ... elif score >= 60: ... else: ...] *)
Definition card_of (score : pynum) : score_card :=
  if py_le (PInt 80) score then Excellent
  else if py_le (PInt 60) score then Good
  else NeedsImprovement.

(** The argument of [st.progress]: [percentage/100]. *)
Definition progress_value (percentage : pynum) : pynum := py_truediv percentage 100.

(** What the page shows: the error of the [except] branch, the error of
    an empty text, or the report with its recommendations and card. *)
Inductive outcome : Type :=
| ErrorAnalyzing
| CouldNotExtract
| Report (a : analysis) (recommendations : list string) (card : score_card).

(** The body of the [try] block. A missing key of the report would be an
    exception too. *)
Definition analyze_upload (impl : sum_impl) (uploaded_file : uploaded_file) : outcome :=
  match extract_text_from_file uploaded_file with
  | None => ErrorAnalyzing
  | Some text =>
      if String.eqb (strip text) "" then CouldNotExtract
      else
        let a := analyze_resume_content impl text in
        let recommendations := generate_recommendations a in
        match overall_score a with
        | Some score => Report a recommendations (card_of score)
        | None => ErrorAnalyzing
        end
  end.

End Page.

(** ** Measures of patterns *)
Module Measure.
Import PyStr Re PyNum ResumeAnalyzer.

(** The least number of characters that a match of a pattern takes. *)
Fixpoint min_len (r : regex) : nat :=
  match r with
  | Lit l => String.length l
  | Cls _ => 1
  | WordB => 0
  | Seq a b => min_len a + min_len b
  | Alt a b => Nat.min (min_len a) (min_len b)
  | Opt _ => 0
  | Rep _ lo _ => lo
  | Grp a => min_len a
  end.

(** The greatest number of characters that a match of a pattern takes,
    [None] when there is no bound. *)
Fixpoint max_len (r : regex) : option nat :=
  match r with
  | Lit l => Some (String.length l)
  | Cls _ => Some 1
  | WordB => Some 0
  | Seq a b =>
      match max_len a, max_len b with
      | Some m, Some n => Some (m + n)
      | _, _ => None
      end
  | Alt a b =>
      match max_len a, max_len b with
      | Some m, Some n => Some (Nat.max m n)
      | _, _ => None
      end
  | Opt a => max_len a
  | Rep _ _ hi => hi
  | Grp a => max_len a
  end.

(** Every group of the pattern takes between [lo] and [hi] characters. *)
Fixpoint groups_within (lo hi : nat) (r : regex) : bool :=
  match r with
  | Lit _ | Cls _ | WordB | Rep _ _ _ => true
  | Seq a b | Alt a b => groups_within lo hi a && groups_within lo hi b
  | Opt a => groups_within lo hi a
  | Grp a =>
      (lo <=? min_len a)%nat
      && match max_len a with Some m => (m <=? hi)%nat | None => false end
      && groups_within lo hi a
  end.

(** The text of a group has between [lo] and [hi] characters. *)
Definition group_within (lo hi : nat) (g : option string) : Prop :=
  match g with
  | None => True
  | Some w => lo <= String.length w <= hi
  end.

(** The pattern is an alternation of literal words, with or without a
    group around it; [words] lists them. *)
Fixpoint literal_only (r : regex) : bool :=
  match r with
  | Lit _ => true
  | Alt a b => literal_only a && literal_only b
  | Grp a => literal_only a
  | _ => false
  end.

Fixpoint words (r : regex) : list string :=
  match r with
  | Lit l => [l]
  | Alt a b => words a ++ words b
  | Grp a => words a
  | _ => []
  end.

(** The case of the score table that a report falls in: the number of
    detected sections, the three coverage percentages and the presence
    of a contact field. *)
Definition coverage_at (a : analysis) (i : nat) : pynum :=
  nth i (map (fun cat => coverage_percentage (snd cat)) (keyword_scores a)) (PInt 0).

Definition case_of (a : analysis) : nat * pynum * pynum * pynum * bool :=
  (List.length (sections_found a), coverage_at a 0, coverage_at a 1, coverage_at a 2,
   truthy (email (contact_info a)) || truthy (phone (contact_info a))).

(** The float 100.0. *)
Definition hundred : pynum := PFloat (of_int 100).

(** What the proofs check about the cards in each case: the score is at
    most 80, at least 10 with a contact field and at most 70 without,
    and it reaches 80 in the complete case only. *)
Definition check_card (x : nat * pynum * pynum * pynum * bool) : bool :=
  let '(n, c1, c2, c3, b) := x in
  let s := calculate_overall_score LeftToRight
             (Aux.report_of n c1 c2 c3 (Aux.contact_of_bool b)) in
  py_le s (PInt 80)
  && (if b then py_le (PInt 10) s else py_le s (PInt 70))
  && Bool.eqb (py_le (PInt 80) s)
       ((n =? 5)%nat && Aux.pynum_same c1 hundred && Aux.pynum_same c2 hundred
        && Aux.pynum_same c3 hundred && b).

(** What the proofs check about a coverage percentage: it is 100.0 when
    every keyword is found and only then, it lies between 0 and 100,
    and it is below 50 when fewer than half of the keywords are found
    and only then. *)
Definition check_coverage (size found : nat) : bool :=
  let c := Aux.coverage_of_count found size in
  Bool.eqb (Aux.pynum_same c hundred) (found =? size)%nat
  && py_le (PInt 0) c && py_le c (PInt 100)
  && py_le (PInt 0) (Page.progress_value c) && py_le (Page.progress_value c) (PInt 1)
  && Bool.eqb (py_lt c (PInt 50)) (2 * found <? size)%nat.

End Measure.

(** ** Unicode texts

    A Python string is a sequence of Unicode code points, and what
    [str.split], [str.strip], [str.lower], [str.title] and the classes
    [\s], [\d] and [\b] of [re] do with a code point above 127 is
    written in the Unicode database of the interpreter. The definitions
    of this part read the script over such texts: a text is a list of
    code points, and the database is a parameter of which only the
    ASCII part is ever pinned down. *)
Module Unicode.

Definition text : Type := list N.

(** The text of an ASCII literal of the script. *)
Definition lit (s : string) : text := map N_of_ascii (list_ascii_of_string s).

(** The code point of an ASCII character. *)
Definition chr (c : ascii) : N := N_of_ascii c.

(** The properties and mappings of the Unicode database that the script
    reaches: [Py_UNICODE_ISSPACE] (white space of [str.split],
    [str.strip] and [\s]), [Py_UNICODE_ISALNUM] (word characters of
    [\b], beside the underscore), [Py_UNICODE_ISDECIMAL] ([\d]),
    [str.lower] and [str.title]. *)
Record database : Type := MkDatabase {
  isspace : N -> bool;
  isalnum : N -> bool;
  isdecimal : N -> bool;
  lower : text -> text;
  title : text -> text
}.

(** The ASCII part of the database, from the character classes of
    [PyStr]. *)
Definition is_ascii (c : N) : bool := (c <? 128)%N.

Definition ascii_class (f : ascii -> bool) (c : N) : bool :=
  is_ascii c && f (ascii_of_N c).

Definition ascii_map (f : ascii -> ascii) (c : N) : N :=
  if is_ascii c then N_of_ascii (f (ascii_of_N c)) else c.

Fixpoint ascii_title_from (prev_cased : bool) (s : text) : text :=
  match s with
  | [] => []
  | c :: s' =>
      let cased := ascii_class PyStr.is_alpha c in
      (if cased
       then (if prev_cased then ascii_map PyStr.to_lower c else ascii_map PyStr.to_upper c)
       else c)
      :: ascii_title_from cased s'
  end.

(** A database that knows the ASCII characters only. *)
Definition ascii_db : database :=
  {| isspace := ascii_class PyStr.is_space;
     isalnum := ascii_class (fun c => PyStr.is_alpha c || PyStr.is_digit c);
     isdecimal := ascii_class PyStr.is_digit;
     lower := map (ascii_map PyStr.to_lower);
     title := ascii_title_from false |}.

(** The ASCII database taught that the no-break space U+00A0 is white
    space, as it is for Python. *)
Definition nbsp : N := 160%N.

Definition nbsp_db : database :=
  {| isspace := fun c => isspace ascii_db c || N.eqb c nbsp;
     isalnum := isalnum ascii_db;
     isdecimal := isdecimal ascii_db;
     lower := lower ascii_db;
     title := title ascii_db |}.


(** [a == b] on texts *)
Fixpoint eqb (a b : text) : bool :=
  match a, b with
  | [], [] => true
  | x :: a', y :: b' => N.eqb x y && eqb a' b'
  | _, _ => false
  end.

(** [s.startswith(p)] *)
Fixpoint prefix (p s : text) : bool :=
  match p, s with
  | [], _ => true
  | x :: p', y :: s' => N.eqb x y && prefix p' s'
  | _ :: _, [] => false
  end.

(** [sub in s] *)
Fixpoint contains (sub s : text) : bool :=
  prefix sub s ||
  match s with
  | [] => false
  | _ :: s' => contains sub s'
  end.

(** [len(s.split())] *)
Fixpoint count_words_from (db : database) (in_word : bool) (s : text) : nat :=
  match s with
  | [] => 0
  | c :: s' =>
      if isspace db c then count_words_from db false s'
      else if in_word then count_words_from db true s'
      else S (count_words_from db true s')
  end.

Definition count_words (db : database) (s : text) : nat := count_words_from db false s.

(** [s.replace(old, new)] for one-character [old] and [new] *)
Definition replace (old new : N) (s : text) : text :=
  map (fun c => if N.eqb c old then new else c) s.

(** [sep.join(l)] *)
Fixpoint join (sep : text) (l : list text) : text :=
  match l with
  | [] => []
  | [x] => x
  | x :: xs => x ++ sep ++ join sep xs
  end.

(** [x in l] for a list of texts *)
Definition mem (x : text) (l : list text) : bool := existsb (eqb x) l.

(** [s.lstrip()], [s.rstrip()], [s.strip()] *)
Fixpoint lstrip (db : database) (s : text) : text :=
  match s with
  | [] => []
  | c :: s' => if isspace db c then lstrip db s' else s
  end.

Fixpoint rstrip (db : database) (s : text) : text :=
  match s with
  | [] => []
  | c :: s' =>
      match rstrip db s' with
      | [] => if isspace db c then [] else [c]
      | d :: r => c :: d :: r
      end
  end.

Definition strip (db : database) (s : text) : text := rstrip db (lstrip db s).

End Unicode.

(** ** Regular expressions over Unicode texts

    The matcher of [Re], with the classes [\d], [\s] and [\b] read from
    the database. *)
Module URe.
Import Unicode.

Inductive cset_item : Type :=
| CChar (c : N)
| CRange (lo hi : N)
| CDigit
| CSpace.

Definition cset := list cset_item.

Definition item_mem (db : database) (c : N) (i : cset_item) : bool :=
  match i with
  | CChar a => N.eqb c a
  | CRange lo hi => (lo <=? c)%N && (c <=? hi)%N
  | CDigit => isdecimal db c
  | CSpace => isspace db c
  end.

Definition cset_mem (db : database) (cs : cset) (c : N) : bool :=
  existsb (item_mem db c) cs.

Inductive regex : Type :=
| Lit (l : text)
| Cls (cs : cset)
| WordB
| Seq (r1 r2 : regex)
| Alt (r1 r2 : regex)
| Opt (r : regex)
| Rep (cs : cset) (lo : nat) (hi : option nat)
| Grp (r : regex).

Fixpoint groups (r : regex) : nat :=
  match r with
  | Lit _ | Cls _ | WordB | Rep _ _ _ => 0
  | Seq a b | Alt a b => groups a + groups b
  | Opt a => groups a
  | Grp a => S (groups a)
  end.

(** [\w]: alphanumeric or underscore. *)
Definition is_word (db : database) (c : N) : bool := isalnum db c || N.eqb c (chr "_").

Definition is_word_opt (db : database) (c : option N) : bool :=
  match c with
  | Some a => is_word db a
  | None => false
  end.

Definition head_char (s : text) : option N :=
  match s with
  | [] => None
  | c :: _ => Some c
  end.

Fixpoint match_lit (l : text) (prev : option N) (s : text) : option (option N * text) :=
  match l with
  | [] => Some (prev, s)
  | a :: l' =>
      match s with
      | [] => None
      | c :: s' => if N.eqb a c then match_lit l' (Some c) s' else None
      end
  end.

Fixpoint match_rep {R : Type} (db : database) (cs : cset) (lo : nat) (hi : option nat)
         (n : nat) (prev : option N) (s : text)
         (k : option N -> text -> option R) : option R :=
  let stop := if (lo <=? n)%nat then k prev s else None in
  let may_take := match hi with Some h => (n <? h)%nat | None => true end in
  match s with
  | [] => stop
  | c :: s' =>
      if may_take && cset_mem db cs c then
        match match_rep db cs lo hi (S n) (Some c) s' k with
        | Some r => Some r
        | None => stop
        end
      else stop
  end.

Fixpoint rmatch {R : Type} (db : database) (r : regex) (prev : option N) (s : text)
         (g : option text) (k : option N -> text -> option text -> option R) : option R :=
  match r with
  | Lit l =>
      match match_lit l prev s with
      | Some (prev', s') => k prev' s' g
      | None => None
      end
  | Cls cs =>
      match s with
      | [] => None
      | c :: s' => if cset_mem db cs c then k (Some c) s' g else None
      end
  | WordB =>
      if xorb (is_word_opt db prev) (is_word_opt db (head_char s)) then k prev s g else None
  | Seq a b => rmatch db a prev s g (fun prev' s' g' => rmatch db b prev' s' g' k)
  | Alt a b =>
      match rmatch db a prev s g k with
      | Some x => Some x
      | None => rmatch db b prev s g k
      end
  | Opt a =>
      match rmatch db a prev s g k with
      | Some x => Some x
      | None => k prev s g
      end
  | Rep cs lo hi => match_rep db cs lo hi 0 prev s (fun prev' s' => k prev' s' g)
  | Grp a =>
      rmatch db a prev s g
        (fun prev' s' _ => k prev' s' (Some (firstn (List.length s - List.length s') s)))
  end.

Record match_obj : Type := MkMatch {
  m_start : nat;
  m_text : text;
  m_group : option text
}.

Definition match_here (db : database) (r : regex) (prev : option N) (s : text)
  : option (nat * option text) :=
  rmatch db r prev s None (fun _ s' g => Some (List.length s - List.length s', g)).

(** [re.search] *)
Fixpoint search_from (db : database) (r : regex) (pos : nat) (prev : option N) (s : text)
  : option match_obj :=
  match match_here db r prev s with
  | Some (len, g) => Some (MkMatch pos (firstn len s) g)
  | None =>
      match s with
      | [] => None
      | c :: s' => search_from db r (S pos) (Some c) s'
      end
  end.

Definition search (db : database) (r : regex) (t : text) : option match_obj :=
  search_from db r 0 None t.

(** [re.finditer] *)
Fixpoint finditer_from (db : database) (r : regex) (skip pos : nat) (prev : option N)
         (s : text) : list match_obj :=
  match skip with
  | S n =>
      match s with
      | [] => []
      | c :: s' => finditer_from db r n (S pos) (Some c) s'
      end
  | O =>
      match match_here db r prev s with
      | Some (len, g) =>
          MkMatch pos (firstn len s) g ::
          match s with
          | [] => []
          | c :: s' => finditer_from db r (len - 1) (S pos) (Some c) s'
          end
      | None =>
          match s with
          | [] => []
          | c :: s' => finditer_from db r 0 (S pos) (Some c) s'
          end
      end
  end.

Definition finditer (db : database) (r : regex) (t : text) : list match_obj :=
  finditer_from db r 0 0 None t.

Definition group_or_empty (m : match_obj) : text :=
  match m_group m with
  | Some g => g
  | None => []
  end.

(** [re.findall] *)
Definition findall_item (r : regex) (m : match_obj) : text :=
  match groups r with
  | O => m_text m
  | S _ => group_or_empty m
  end.

Definition findall (db : database) (r : regex) (t : text) : list text :=
  map (findall_item r) (finditer db r t).

End URe.


(** ** The class [ResumeAnalyzer] over Unicode texts *)
Module UAnalyzer.
Import Unicode URe PyNum.

Notation "a ;; b" := (Seq a b) (at level 61, right associativity).

Definition keyword_categories : list (text * list text) :=
  [ (lit "technical_skills",
     map lit ["python"; "java"; "javascript"; "sql"; "html"; "css"; "react"; "git"; "aws"]);
    (lit "soft_skills",
     map lit ["communication"; "leadership"; "teamwork"; "problem solving";
              "time management"]);
    (lit "action_verbs",
     map lit ["developed"; "managed"; "implemented"; "created"; "led"; "analyzed"]) ].

Record keyword_score : Type := MkKeywordScore {
  coverage_percentage : pynum;
  found_keywords : list text;
  missing_keywords : list text
}.

Record contact : Type := MkContact {
  email : option text;
  phone : option text
}.

Record analysis : Type := MkAnalysis {
  word_count : nat;
  sections_found : list text;
  missing_sections : list text;
  keyword_scores : list (text * keyword_score);
  contact_info : contact;
  overall_score : option pynum
}.

Definition section_patterns : list (text * regex) :=
  [ (lit "contact_info",
     Grp (Alt (Lit (lit "contact")) (Alt (Lit (lit "phone"))
          (Alt (Lit (lit "email")) (Lit (lit "address"))))));
    (lit "experience",
     Grp (Alt (Lit (lit "experience")) (Alt (Lit (lit "work history"))
          (Lit (lit "employment")))));
    (lit "education", Grp (Alt (Lit (lit "education")) (Lit (lit "academic"))));
    (lit "skills", Grp (Alt (Lit (lit "skills")) (Lit (lit "technical skills"))));
    (lit "projects", Grp (Alt (Lit (lit "projects")) (Lit (lit "portfolio")))) ].

Definition is_some {A : Type} (o : option A) : bool :=
  match o with
  | Some _ => true
  | None => false
  end.

Definition detect_sections (db : database) (t : text) : list text :=
  let text_lower := lower db t in
  map fst (filter (fun sp => is_some (search db (snd sp) text_lower)) section_patterns).

Definition important_sections : list text :=
  map lit ["contact_info"; "experience"; "education"; "skills"].

Definition find_missing_sections (found_sections : list text) : list text :=
  filter (fun section => negb (mem section found_sections)) important_sections.

Definition score_category (text_lower : text) (keywords : list text) : keyword_score :=
  let found := filter (fun kw => contains kw text_lower) keywords in
  let coverage :=
    match keywords with
    | [] => PInt 0
    | _ :: tl =>
        py_mul (py_truediv (PInt (Z.of_nat (List.length found)))
                           (Pos.of_succ_nat (List.length tl)))
               (PInt 100)
    end in
  {| coverage_percentage := py_round2 coverage;
     found_keywords := found;
     missing_keywords := filter (fun kw => negb (mem kw found)) keywords |}.

Definition analyze_keywords (db : database) (t : text) : list (text * keyword_score) :=
  let text_lower := lower db t in
  map (fun ck => (fst ck, score_category text_lower (snd ck))) keyword_categories.

(** [\b[A-Za-z0-9._%+-]+@[A-Za-z0-9.-]+\.[A-Z|a-z]{2,}\b] *)
Definition email_pattern : regex :=
  WordB ;;
  Rep [CRange (chr "A") (chr "Z"); CRange (chr "a") (chr "z"); CRange (chr "0") (chr "9");
       CChar (chr "."); CChar (chr "_"); CChar (chr "%"); CChar (chr "+"); CChar (chr "-")]
      1 None ;;
  Lit (lit "@") ;;
  Rep [CRange (chr "A") (chr "Z"); CRange (chr "a") (chr "z"); CRange (chr "0") (chr "9");
       CChar (chr "."); CChar (chr "-")] 1 None ;;
  Lit (lit ".") ;;
  Rep [CRange (chr "A") (chr "Z"); CChar (chr "|"); CRange (chr "a") (chr "z")] 2 None ;;
  WordB.

(** [[-.\s]] *)
Definition separator : cset := [CChar (chr "-"); CChar (chr "."); CSpace].

(** [(\+?\d{1,3}[-.\s]?)?\(?\d{3}\)?[-.\s]?\d{3}[-.\s]?\d{4}] *)
Definition phone_pattern : regex :=
  Opt (Grp (Opt (Lit (lit "+")) ;; Rep [CDigit] 1 (Some 3) ;; Opt (Cls separator))) ;;
  Opt (Lit (lit "(")) ;;
  Rep [CDigit] 3 (Some 3) ;;
  Opt (Lit (lit ")")) ;;
  Opt (Cls separator) ;;
  Rep [CDigit] 3 (Some 3) ;;
  Opt (Cls separator) ;;
  Rep [CDigit] 4 (Some 4).

Definition first_or_none (l : list text) : option text :=
  match l with
  | [] => None
  | x :: _ => Some x
  end.

Definition extract_contact_info (db : database) (t : text) : contact :=
  let emails := findall db email_pattern t in
  let phones := findall db phone_pattern t in
  {| email := first_or_none emails; phone := first_or_none phones |}.

(** Truth value of a contact field: [None] and the empty text are
    false. *)
Definition truthy (v : option text) : bool :=
  match v with
  | None => false
  | Some [] => false
  | Some (_ :: _) => true
  end.

Definition contact_score (c : contact) : pynum :=
  if existsb truthy [email c; phone c] then PInt 10 else PInt 0.

Definition lit_0_4 : pynum := PFloat (of_Q (4 # 10)).

Definition calculate_overall_score (impl : sum_impl) (a : analysis) : pynum :=
  let score :=
    py_mul (py_truediv (PInt (Z.of_nat (List.length (sections_found a)))) 5) (PInt 30) in
  let keyword_score :=
    py_mul (py_truediv
              (py_sum impl (map (fun cat => coverage_percentage (snd cat)) (keyword_scores a)))
              3)
           lit_0_4 in
  let score := py_add score keyword_score in
  let score := py_add score (contact_score (contact_info a)) in
  py_round2 (py_min (PInt 100) score).

Definition analyze_resume_content (db : database) (impl : sum_impl) (t : text) : analysis :=
  let sections := detect_sections db t in
  let a :=
    {| word_count := count_words db t;
       sections_found := sections;
       missing_sections := find_missing_sections sections;
       keyword_scores := analyze_keywords db t;
       contact_info := extract_contact_info db t;
       overall_score := None |} in
  {| word_count := word_count a;
     sections_found := sections_found a;
     missing_sections := missing_sections a;
     keyword_scores := keyword_scores a;
     contact_info := contact_info a;
     overall_score := Some (calculate_overall_score impl a) |}.

Definition append (recommendations : list text) (line : text) : list text :=
  recommendations ++ [line].

Definition section_line (db : database) (missing_section : text) : text :=
  lit "Add '" ++ title db (replace (chr "_") (chr " ") missing_section) ++ lit "' section".

Definition keyword_line (category : text) (score : keyword_score) : text :=
  let missing := join (lit ", ") (firstn 3 (missing_keywords score)) in
  lit "Add more " ++ replace (chr "_") (chr " ") category ++ lit " like: " ++ missing.

Definition generate_recommendations (db : database) (a : analysis) : list text :=
  let recommendations := [] in
  let recommendations :=
    fold_left (fun recs missing_section => append recs (section_line db missing_section))
              (missing_sections a) recommendations in
  let recommendations :=
    fold_left (fun recs cs =>
                 if py_lt (coverage_percentage (snd cs)) (PInt 50)
                 then append recs (keyword_line (fst cs) (snd cs))
                 else recs)
              (keyword_scores a) recommendations in
  let recommendations :=
    if negb (truthy (email (contact_info a)))
    then append recommendations (lit "Add professional email address")
    else recommendations in
  let recommendations :=
    if negb (truthy (phone (contact_info a)))
    then append recommendations (lit "Add phone number")
    else recommendations in
  recommendations.

(** The matches of the phone pattern in a text are bare numbers: there
    is one at least, and in none did the group of the country code take
    part. *)
Definition bare_phone_only (db : database) (t : text) : Prop :=
  finditer db phone_pattern t <> []
  /\ Forall (fun m => m_group m = None) (finditer db phone_pattern t).


End UAnalyzer.


(** ** Measures of patterns over Unicode texts *)
Module UMeasure.
Import Unicode URe.

(** The least number of code points that a match of a pattern takes. *)
Fixpoint min_len (r : regex) : nat :=
  match r with
  | Lit l => List.length l
  | Cls _ => 1
  | WordB => 0
  | Seq a b => min_len a + min_len b
  | Alt a b => Nat.min (min_len a) (min_len b)
  | Opt _ => 0
  | Rep _ lo _ => lo
  | Grp a => min_len a
  end.

(** The greatest number of code points that a match of a pattern
    takes, [None] when there is no bound. *)
Fixpoint max_len (r : regex) : option nat :=
  match r with
  | Lit l => Some (List.length l)
  | Cls _ => Some 1
  | WordB => Some 0
  | Seq a b =>
      match max_len a, max_len b with
      | Some m, Some n => Some (m + n)
      | _, _ => None
      end
  | Alt a b =>
      match max_len a, max_len b with
      | Some m, Some n => Some (Nat.max m n)
      | _, _ => None
      end
  | Opt a => max_len a
  | Rep _ _ hi => hi
  | Grp a => max_len a
  end.

(** Every group of the pattern takes between [lo] and [hi] code
    points. *)
Fixpoint groups_within (lo hi : nat) (r : regex) : bool :=
  match r with
  | Lit _ | Cls _ | WordB | Rep _ _ _ => true
  | Seq a b | Alt a b => groups_within lo hi a && groups_within lo hi b
  | Opt a => groups_within lo hi a
  | Grp a =>
      (lo <=? min_len a)%nat
      && match max_len a with Some m => (m <=? hi)%nat | None => false end
      && groups_within lo hi a
  end.

Definition group_within (lo hi : nat) (g : option text) : Prop :=
  match g with
  | None => True
  | Some w => lo <= List.length w <= hi
  end.

(** The pattern is an alternation of literal words, with or without a
    group around it; [words] lists them. *)
Fixpoint literal_only (r : regex) : bool :=
  match r with
  | Lit _ => true
  | Alt a b => literal_only a && literal_only b
  | Grp a => literal_only a
  | _ => false
  end.

Fixpoint words (r : regex) : list text :=
  match r with
  | Lit l => [l]
  | Alt a b => words a ++ words b
  | Grp a => words a
  | _ => []
  end.

End UMeasure.


(** ** Extraction of the text and the page, over Unicode texts *)
Module UExtractor.
Import Unicode.

(** The line feed. *)
Definition newline : text := [10%N].

(** What the script sees of an uploaded file: its declared type and what
    the three readers return for it, [None] when the reader raises an
    exception: the texts of the pages of [PyPDF2.PdfReader], the texts
    of the paragraphs of [docx.Document], and the bytes decoded as
    UTF-8. *)
Record uploaded_file : Type := MkFile {
  type : text;
  pdf_pages : option (list text);
  docx_paragraphs : option (list text);
  utf8_text : option text
}.

(** The loops [text += part + "\n"]. *)
Definition concat_lines (parts : list text) : text :=
  fold_left (fun text part => text ++ (part ++ newline)) parts [].

(** The variable [text] before the last line of the function; [None]
    is an exception of a reader. *)
Definition read_text (uploaded_file : uploaded_file) : option text :=
  if eqb (type uploaded_file) (lit "application/pdf") then
    option_map concat_lines (pdf_pages uploaded_file)
  else if eqb (type uploaded_file)
            (lit "application/vnd.openxmlformats-officedocument.wordprocessingml.document") then
    option_map concat_lines (docx_paragraphs uploaded_file)
  else utf8_text uploaded_file.

Definition extract_text_from_file (db : database) (uploaded_file : uploaded_file)
  : option text :=
  option_map (strip db) (read_text uploaded_file).

End UExtractor.

Module UPage.
Import Unicode PyNum UAnalyzer UExtractor.

(** What the page shows: the error of the [except] branch, the error of
    an empty text, or the report with its recommendations and card. *)
Inductive outcome : Type :=
| ErrorAnalyzing
| CouldNotExtract
| Report (a : analysis) (recommendations : list text) (card : Page.score_card).

(** The body of the [try] block. *)
Definition analyze_upload (db : database) (impl : sum_impl) (uploaded_file : uploaded_file)
  : outcome :=
  match extract_text_from_file db uploaded_file with
  | None => ErrorAnalyzing
  | Some text =>
      match strip db text with
      | [] => CouldNotExtract
      | _ :: _ =>
          let a := analyze_resume_content db impl text in
          let recommendations := generate_recommendations db a in
          match overall_score a with
          | Some score => Report a recommendations (Page.card_of score)
          | None => ErrorAnalyzing
          end
      end
  end.

End UPage.

(** * Properties *)

Import PyStr Re PyNum ResumeAnalyzer Aux.

(** ** Lists of strings *)

Lemma mem_In (x : string) (l : list string) : mem x l = true <-> In x l.
Proof.
  unfold mem. rewrite existsb_exists. split.
  - intros [y [Hy Heq]]. apply String.eqb_eq in Heq. now subst.
  - intros H. exists x. split; [assumption | apply String.eqb_refl].
Qed.

Lemma not_mem_In (x : string) (l : list string) : negb (mem x l) = true <-> ~ In x l.
Proof.
  rewrite negb_true_iff, <- mem_In. destruct (mem x l); split; congruence.
Qed.

Lemma filter_complement_perm {A : Type} (f : A -> bool) (l : list A) :
  Permutation (filter f l ++ filter (fun x => negb (f x)) l) l.
Proof.
  induction l as [|x l IH]; simpl.
  - constructor.
  - destruct (f x); simpl.
    + now constructor.
    + symmetry. apply Permutation_cons_app. now symmetry.
Qed.

(** The list of the keywords that are not among the found ones is the
    list of those that fail the test. *)
Lemma missing_is_complement (f : string -> bool) (l : list string) :
  filter (fun x => negb (mem x (filter f l))) l = filter (fun x => negb (f x)) l.
Proof.
  apply filter_ext_in. intros x Hx. f_equal.
  destruct (f x) eqn:Hf.
  - apply mem_In, filter_In. now split.
  - destruct (mem x (filter f l)) eqn:Hm; [|reflexivity].
    apply mem_In, filter_In in Hm. destruct Hm. congruence.
Qed.

Lemma filter_splits (f : string -> bool) (l : list string) :
  NoDup l ->
  splits l (filter f l) (filter (fun x => negb (mem x (filter f l))) l).
Proof.
  intros Hnd. rewrite missing_is_complement. unfold splits.
  repeat split.
  - intros kw H1 H2. apply filter_In in H1, H2.
    destruct H1 as [_ H1], H2 as [_ H2]. rewrite H1 in H2. discriminate.
  - now apply NoDup_filter.
  - now apply NoDup_filter.
  - intros H. destruct (f kw) eqn:Hf.
    + left. apply filter_In. now split.
    + right. apply filter_In. split; [assumption | now rewrite Hf].
  - intros [H | H]; apply filter_In in H; tauto.
  - apply filter_complement_perm.
Qed.

Lemma NoDup_map_fst_filter {A B : Type} (p : A * B -> bool) (l : list (A * B)) :
  NoDup (map fst l) -> NoDup (map fst (filter p l)).
Proof.
  induction l as [|x l IH]; simpl; intros H.
  - constructor.
  - inversion H as [|? ? Hnotin Hnd]; subst.
    destruct (p x); simpl; [|now apply IH].
    constructor; [|now apply IH].
    intros Hin. apply Hnotin.
    apply in_map_iff in Hin. destruct Hin as [y [Hy Hin]].
    apply filter_In in Hin. apply in_map_iff. exists y. tauto.
Qed.

(** ** The loops of [generate_recommendations] *)

Lemma fold_append_map {A : Type} (f : A -> string) (l : list A) (acc : list string) :
  fold_left (fun recs x => append recs (f x)) l acc = acc ++ map f l.
Proof.
  revert acc. induction l as [|x l IH]; intros acc; simpl.
  - now rewrite app_nil_r.
  - rewrite IH. unfold append. now rewrite <- app_assoc.
Qed.

Lemma fold_append_if {A : Type} (c : A -> bool) (f : A -> string)
      (l : list A) (acc : list string) :
  fold_left (fun recs x => if c x then append recs (f x) else recs) l acc
  = acc ++ flat_map (fun x => if c x then [f x] else []) l.
Proof.
  revert acc. induction l as [|x l IH]; intros acc; simpl.
  - now rewrite app_nil_r.
  - rewrite IH. destruct (c x); simpl; [|reflexivity].
    unfold append. now rewrite <- app_assoc.
Qed.

(** The recommendations, block by block. *)
Lemma generate_recommendations_blocks (a : analysis) :
  generate_recommendations a
  = map section_line (missing_sections a)
    ++ flat_map (fun cs => if py_lt (coverage_percentage (snd cs)) (PInt 50)
                           then [keyword_line (fst cs) (snd cs)] else [])
                (keyword_scores a)
    ++ (if truthy (email (contact_info a)) then [] else ["Add professional email address"])
    ++ (if truthy (phone (contact_info a)) then [] else ["Add phone number"]).
Proof.
  unfold generate_recommendations.
  rewrite fold_append_map, fold_append_if. simpl.
  destruct (truthy (email (contact_info a))), (truthy (phone (contact_info a)));
    simpl; unfold append; rewrite ?app_nil_r, <- ?app_assoc; reflexivity.
Qed.

(** ** Numbers *)

Lemma float_same_eq (x y : float) : float_same x y = true -> x = y.
Proof.
  destruct x as [a|a| |a m e], y as [b|b| |b n f]; simpl; try discriminate.
  - intros H. apply Bool.eqb_prop in H. now subst.
  - intros H. apply Bool.eqb_prop in H. now subst.
  - reflexivity.
  - rewrite !andb_true_iff. intros [[H1 H2] H3].
    apply Bool.eqb_prop in H1. apply Pos.eqb_eq in H2. apply Z.eqb_eq in H3.
    now subst.
Qed.

Lemma pynum_same_eq (a b : pynum) : pynum_same a b = true -> a = b.
Proof.
  destruct a as [x|x], b as [y|y]; simpl; try discriminate; intros H.
  - apply Z.eqb_eq in H. now subst.
  - apply float_same_eq in H. now subst.
Qed.

(** Two finite floats that compare equal are the same float. *)
Lemma SFcompare_finite_Eq (s s' : bool) (m m' : positive) (e e' : Z) :
  SFcompare (S754_finite s m e) (S754_finite s' m' e') = Some Eq ->
  s = s' /\ m = m' /\ e = e'.
Proof.
  cbn [SFcompare]. intros H. injection H as H.
  destruct s, s'; try discriminate;
    destruct (Z.compare_spec e e') as [He|He|He]; try discriminate;
    subst e'; fold (Pos.compare m m') in H.
  - apply CompOpp_iff in H. cbn in H. apply Pos.compare_eq in H. auto.
  - apply Pos.compare_eq in H. auto.
Qed.

Lemma feqb_finite (x : float) (s : bool) (m : positive) (e : Z) :
  feqb x (S754_finite s m e) = true -> x = S754_finite s m e.
Proof.
  unfold feqb, SFeqb.
  destruct (SFcompare x (S754_finite s m e)) as [[| |]|] eqn:Hc; try discriminate.
  intros _. destruct x as [a|a| |a n f].
  - cbn [SFcompare] in Hc. destruct s; discriminate.
  - cbn [SFcompare] in Hc. destruct a; discriminate.
  - discriminate.
  - apply SFcompare_finite_Eq in Hc. destruct Hc as (-> & -> & ->). reflexivity.
Qed.

(** A number that compares equal to 100 is not less than 50. *)
Lemma eq_100_not_lt_50 (v : pynum) :
  py_eq v (PInt 100) = true -> py_lt v (PInt 50) = false.
Proof.
  destruct v as [n|x].
  - cbn [py_eq py_lt]. intros H. apply Z.eqb_eq in H. subst. reflexivity.
  - cbn [py_eq py_lt to_float].
    replace (of_int 100) with (S754_finite false 7036874417766400%positive (-46))
      by (vm_compute; reflexivity).
    intros H. apply feqb_finite in H. subst x. vm_compute. reflexivity.
Qed.

(** ** The score over all the reports that the analyzer can build *)

Lemma all_cases_checked : forallb check_case all_cases = true.
Proof. vm_compute. reflexivity. Qed.

Lemma coverages_checked :
  forallb (coverage_agrees 9) (seq 0 10)
  && forallb (coverage_agrees 5) (seq 0 6)
  && forallb (coverage_agrees 6) (seq 0 7) = true.
Proof. vm_compute. reflexivity. Qed.

Lemma In_coverages (found size : nat) :
  found <= size -> In (coverage_of_count found size) (coverages size).
Proof.
  intros H. unfold coverages.
  apply (in_map (fun k => coverage_of_count k size)).
  apply in_seq. lia.
Qed.

Lemma In_all_cases (n : nat) (c1 c2 c3 : pynum) (b : bool) :
  n <= 5 -> In c1 (coverages 9) -> In c2 (coverages 5) -> In c3 (coverages 6) ->
  In (n, c1, c2, c3, b) all_cases.
Proof.
  intros Hn H1 H2 H3. unfold all_cases.
  apply in_flat_map. exists c1. split; [assumption|].
  apply in_flat_map. exists c2. split; [assumption|].
  apply in_flat_map. exists c3. split; [assumption|].
  apply in_flat_map. exists n. split; [apply in_seq; lia|].
  destruct b; [left | right; left]; reflexivity.
Qed.

Lemma calculate_overall_score_core (impl : sum_impl) (a : analysis) :
  calculate_overall_score impl a
  = score_core impl (List.length (sections_found a))
      (map (fun cat => coverage_percentage (snd cat)) (keyword_scores a))
      (contact_score (contact_info a)).
Proof. reflexivity. Qed.

Lemma non_empty_truthy (field : option string) : Spec.non_empty field = truthy field.
Proof. destruct field; reflexivity. Qed.

Lemma contact_score_bool (c : contact) :
  contact_score c = contact_score (contact_of_bool (truthy (email c) || truthy (phone c))).
Proof.
  unfold contact_score. simpl.
  destruct (truthy (email c)), (truthy (phone c)); reflexivity.
Qed.

Lemma spec_overall_score_bool (n : nat) (l : list Q) (c : contact) :
  Spec.overall_score n l c
  = Spec.overall_score n l (contact_of_bool (truthy (email c) || truthy (phone c))).
Proof.
  unfold Spec.overall_score.
  rewrite <- (non_empty_truthy (email c)), <- (non_empty_truthy (phone c)).
  destruct (Spec.non_empty (email c)), (Spec.non_empty (phone c)); reflexivity.
Qed.

(** The number of keywords of a category that the text contains. *)
Lemma coverage_percentage_count (text_lower : string) (keywords : list string) :
  coverage_percentage (score_category text_lower keywords)
  = coverage_of_count
      (List.length (filter (fun kw => contains kw text_lower) keywords))
      (List.length keywords).
Proof. destruct keywords; reflexivity. Qed.

Lemma detect_sections_length (text : string) : List.length (detect_sections text) <= 5.
Proof.
  unfold detect_sections. rewrite length_map.
  apply (filter_length_le _ section_patterns).
Qed.

(** The report of a text has the score of one of the checked cases. *)
Lemma report_is_case (impl : sum_impl) (text : string) :
  let a := analyze_resume_content impl text in
  exists n c1 c2 c3 b,
    In (n, c1, c2, c3, b) all_cases
    /\ calculate_overall_score impl a
       = calculate_overall_score impl (report_of n c1 c2 c3 (contact_of_bool b))
    /\ spec_score a = spec_score (report_of n c1 c2 c3 (contact_of_bool b)).
Proof.
  intros a.
  set (tl := lower text).
  set (found := fun kws => List.length (filter (fun kw => contains kw tl) kws)).
  set (c := extract_contact_info text).
  exists (List.length (detect_sections text)).
  exists (coverage_of_count
            (found ["python"; "java"; "javascript"; "sql"; "html"; "css"; "react"; "git"; "aws"]) 9).
  exists (coverage_of_count
            (found ["communication"; "leadership"; "teamwork"; "problem solving";
                    "time management"]) 5).
  exists (coverage_of_count
            (found ["developed"; "managed"; "implemented"; "created"; "led"; "analyzed"]) 6).
  exists (truthy (email c) || truthy (phone c)).
  split; [|split].
  - apply In_all_cases.
    + apply detect_sections_length.
    + apply In_coverages. apply (filter_length_le _ [_; _; _; _; _; _; _; _; _]).
    + apply In_coverages. apply (filter_length_le _ [_; _; _; _; _]).
    + apply In_coverages. apply (filter_length_le _ [_; _; _; _; _; _]).
  - rewrite !calculate_overall_score_core.
    change (contact_info a) with c.
    rewrite (contact_score_bool c).
    unfold report_of; cbn [sections_found keyword_scores contact_info map snd coverage_percentage].
    rewrite repeat_length.
    reflexivity.
  - unfold spec_score.
    change (contact_info a) with c.
    rewrite (spec_overall_score_bool _ _ c).
    unfold report_of; cbn [sections_found keyword_scores contact_info map snd coverage_percentage].
    rewrite repeat_length.
    reflexivity.
Qed.

(** The facts about the score that the claims need, for every text. *)
Lemma score_facts (impl : sum_impl) (text : string) :
  let a := analyze_resume_content impl text in
  let s := calculate_overall_score impl a in
  s = PFloat (of_Q (spec_score a))
  /\ py_le (PInt 0) s = true /\ py_le s (PInt 100) = true.
Proof.
  intros a s.
  destruct (report_is_case impl text) as (n & c1 & c2 & c3 & b & Hin & Hs & Hq).
  fold a in Hs, Hq. fold s in Hs.
  pose proof (proj1 (forallb_forall check_case all_cases) all_cases_checked _ Hin) as Hc.
  unfold check_case in Hc.
  rewrite !andb_true_iff in Hc. destruct Hc as [[[H1 H2] H3] H4].
  apply pynum_same_eq in H1, H2.
  assert (Heq : s = calculate_overall_score LeftToRight
                      (report_of n c1 c2 c3 (contact_of_bool b))).
  { rewrite Hs. destruct impl; [reflexivity | exact H2]. }
  rewrite Heq, Hq. auto.
Qed.

(** ** Regular expressions *)

(** With a pattern that has no group, [findall] lists the texts of the
    matches. *)
Lemma findall_no_group (r : regex) (text : string) :
  groups r = 0 -> findall r text = map m_text (finditer r text).
Proof.
  intros H. unfold findall. apply map_ext. intros m.
  unfold findall_item. now rewrite H.
Qed.

(** With a pattern that has a group, [findall] lists the texts of the
    group, empty where the group took no part. *)
Lemma findall_group (r : regex) (text : string) :
  groups r <> 0 ->
  findall r text
  = map group_or_empty (finditer r text).
Proof.
  intros H. unfold findall. apply map_ext. intros m.
  unfold findall_item. destruct (groups r); [contradiction | reflexivity].
Qed.

(** The first match of [finditer] is the match of [search]. *)
Lemma finditer_from_head (r : regex) (s : string) (pos : nat) (prev : option ascii) :
  hd_error (finditer_from r 0 pos prev s) = search_from r pos prev s.
Proof.
  revert pos prev. induction s as [|c s IH]; intros pos prev; simpl.
  - destruct (match_here r prev "") as [[len g]|]; reflexivity.
  - destruct (match_here r prev (String c s)) as [[len g]|]; [reflexivity|].
    apply IH.
Qed.

Lemma finditer_head (r : regex) (text : string) :
  hd_error (finditer r text) = search r text.
Proof. apply finditer_from_head. Qed.

Lemma first_or_none_map {A : Type} (f : A -> string) (l : list A) :
  first_or_none (map f l) = option_map f (hd_error l).
Proof. destruct l; reflexivity. Qed.

Lemma groups_email_pattern : groups email_pattern = 0.
Proof. reflexivity. Qed.

Lemma groups_phone_pattern : groups phone_pattern = 1.
Proof. reflexivity. Qed.

(** The e-mail field is the text of the first match of the e-mail
    pattern. *)
Lemma email_is_first_match (text : string) :
  email (extract_contact_info text) = option_map m_text (search email_pattern text).
Proof.
  unfold extract_contact_info. cbn [email].
  rewrite (findall_no_group _ _ groups_email_pattern), first_or_none_map.
  now rewrite finditer_head.
Qed.

(** The phone field is the text of the group of the first match of the
    phone pattern, not the text of the match. *)
Lemma phone_is_first_group (text : string) :
  phone (extract_contact_info text)
  = option_map group_or_empty (search phone_pattern text).
Proof.
  unfold extract_contact_info. cbn [phone].
  rewrite findall_group by (rewrite groups_phone_pattern; discriminate).
  rewrite first_or_none_map. now rewrite finditer_head.
Qed.

(** ** The vocabularies *)

Lemma keyword_categories_NoDup :
  Forall (fun ck => NoDup (snd ck)) keyword_categories.
Proof.
  unfold keyword_categories.
  repeat (apply Forall_cons || apply Forall_nil); cbn [snd];
    repeat (apply NoDup_cons || apply NoDup_nil);
    cbn [In]; intuition discriminate.
Qed.

Lemma section_tags_NoDup : NoDup (map fst section_patterns).
Proof.
  cbn [map fst section_patterns].
  repeat (apply NoDup_cons || apply NoDup_nil); cbn [In]; intuition discriminate.
Qed.

(** ** The keyword categories *)

Lemma Forall2_map_right {A B : Type} (P : A -> B -> Prop) (f : A -> B) (l : list A) :
  Forall (fun x => P x (f x)) l -> Forall2 P l (map f l).
Proof.
  induction 1; simpl; constructor; assumption.
Qed.

Lemma coverage_agrees_upto (size found : nat) :
  forallb (coverage_agrees size) (seq 0 (S size)) = true ->
  found <= size ->
  coverage_of_count found size = PFloat (of_Q (Spec.coverage found size)).
Proof.
  intros Hall Hle. apply pynum_same_eq.
  apply (proj1 (forallb_forall _ _) Hall). apply in_seq. lia.
Qed.

(** What [analyze_keywords] reports for one category. *)
Lemma score_category_facts (text_lower : string) (keywords : list string) :
  NoDup keywords ->
  forallb (coverage_agrees (List.length keywords)) (seq 0 (S (List.length keywords))) = true ->
  let sc := score_category text_lower keywords in
  splits keywords (found_keywords sc) (missing_keywords sc)
  /\ coverage_percentage sc
     = PFloat (of_Q (Spec.coverage (List.length (found_keywords sc)) (List.length keywords))).
Proof.
  intros Hnd Hall sc. split.
  - apply (filter_splits (fun kw => contains kw text_lower) keywords Hnd).
  - unfold sc. rewrite coverage_percentage_count.
    apply coverage_agrees_upto; [assumption | apply filter_length_le].
Qed.

(** ** The claims *)

(** C1. For every input text, the overall score computed by
    [calculate_overall_score], and stored in the report, is the number of
    detected sections divided by 5 and multiplied by 30, plus the mean of
    the three coverage percentages multiplied by 0.4, plus 10 when the
    e-mail or the phone field is non-empty, clamped to [0, 100] and
    rounded to 2 decimals: the floating-point result of the script is the
    double nearest to the value that the formula has in exact
    arithmetic, whichever summation the interpreter uses. *)
Theorem C1_overall_score_formula (impl : sum_impl) (text : string) :
  let a := analyze_resume_content impl text in
  overall_score a = Some (calculate_overall_score impl a)
  /\ List.length (keyword_scores a) = 3
  /\ calculate_overall_score impl a
     = PFloat (of_Q (Spec.overall_score
                       (List.length (sections_found a))
                       (map (fun cat => value (coverage_percentage (snd cat)))
                            (keyword_scores a))
                       (contact_info a))).
Proof.
  intros a. split; [reflexivity | split; [reflexivity|]].
  apply (score_facts impl text).
Qed.

(** C4. For every input text, the empty one included, the overall score
    of the report lies in the closed interval [0, 100]. *)
Theorem C4_overall_score_in_range (impl : sum_impl) (text : string) :
  exists s,
    overall_score (analyze_resume_content impl text) = Some s
    /\ py_le (PInt 0) s = true /\ py_le s (PInt 100) = true.
Proof.
  exists (calculate_overall_score impl (analyze_resume_content impl text)).
  split; [reflexivity|]. apply (score_facts impl text).
Qed.

(** C5. For every input text and every keyword category, the found and
    the missing keywords of the report are disjoint, without duplicates,
    and together exactly the vocabulary of the category; and the
    coverage percentage is the number of found keywords divided by the
    size of the category, multiplied by 100 and rounded to 2 decimals
    (as a double: the one nearest to that decimal number). *)
Theorem C5_keywords_partition (text : string) :
  Forall2
    (fun ck cs =>
       fst cs = fst ck
       /\ splits (snd ck) (found_keywords (snd cs)) (missing_keywords (snd cs))
       /\ coverage_percentage (snd cs)
          = PFloat (of_Q (Spec.coverage (List.length (found_keywords (snd cs)))
                                        (List.length (snd ck)))))
    keyword_categories (analyze_keywords text).
Proof.
  unfold analyze_keywords. apply Forall2_map_right.
  pose proof keyword_categories_NoDup as Hnd.
  pose proof coverages_checked as Hc.
  rewrite !andb_true_iff in Hc. destruct Hc as [[H9 H5] H6].
  unfold keyword_categories in *.
  inversion Hnd as [|? ? Hn1 Hnd1]; subst.
  inversion Hnd1 as [|? ? Hn2 Hnd2]; subst.
  inversion Hnd2 as [|? ? Hn3 _]; subst.
  repeat apply Forall_cons; try apply Forall_nil;
    (split; [reflexivity|]); cbn [fst snd];
    apply score_category_facts; assumption.
Qed.

(** C6. For every input text, the detected important sections and the
    missing sections are disjoint and together exactly the important
    sections contact_info, experience, education and skills: the missing
    sections are the four important tags without the detected ones, and
    projects is never missing. *)
Theorem C6_sections_partition (text : string) :
  let detected := detect_sections text in
  let missing := find_missing_sections detected in
  (forall s, In s missing -> ~ In s detected)
  /\ (forall s, In s (detected_important text) -> ~ In s missing)
  /\ (forall s, In s important_sections <-> In s (detected_important text) \/ In s missing)
  /\ NoDup (detected_important text) /\ NoDup missing
  /\ missing = filter (fun s => negb (mem s detected)) important_sections
  /\ important_sections = ["contact_info"; "experience"; "education"; "skills"]
  /\ ~ In "projects" missing.
Proof.
  intros detected missing.
  assert (Hmis : forall s, In s missing <-> In s important_sections /\ ~ In s detected).
  { intros s. unfold missing, find_missing_sections.
    rewrite filter_In, not_mem_In. reflexivity. }
  assert (Hdet : forall s, In s (detected_important text)
                           <-> In s detected /\ In s important_sections).
  { intros s. unfold detected_important. fold detected.
    rewrite filter_In, mem_In. reflexivity. }
  assert (Hnd : NoDup important_sections).
  { unfold important_sections.
    repeat (apply NoDup_cons || apply NoDup_nil); cbn [In]; intuition discriminate. }
  repeat split.
  - intros s H. apply Hmis in H. tauto.
  - intros s H1 H2. apply Hdet in H1. apply Hmis in H2. tauto.
  - intros H. destruct (mem s detected) eqn:Hm.
    + left. apply Hdet. split; [now apply mem_In | assumption].
    + right. apply Hmis. split; [assumption|].
      apply not_mem_In. now rewrite Hm.
  - intros [H | H]; [apply Hdet in H | apply Hmis in H]; tauto.
  - apply NoDup_filter. unfold detected, detect_sections.
    apply NoDup_map_fst_filter, section_tags_NoDup.
  - now apply NoDup_filter.
  - intros H. apply Hmis in H. destruct H as [H _].
    cbn [In important_sections] in H. intuition discriminate.
Qed.

(** C8. For every analysis report with no missing section, a coverage
    percentage equal to 100 in every keyword category and both the
    e-mail and the phone present (non-empty), the list of
    recommendations is empty. *)
Theorem C8_no_recommendations (a : analysis) :
  missing_sections a = [] ->
  forallb (fun cs => py_eq (coverage_percentage (snd cs)) (PInt 100)) (keyword_scores a)
  = true ->
  truthy (email (contact_info a)) = true ->
  truthy (phone (contact_info a)) = true ->
  generate_recommendations a = [].
Proof.
  intros Hmis Hcov Hemail Hphone.
  rewrite generate_recommendations_blocks, Hmis, Hemail, Hphone.
  cbn [map app]. rewrite app_nil_r.
  induction (keyword_scores a) as [|cs l IH]; [reflexivity|].
  cbn [forallb] in Hcov. apply andb_true_iff in Hcov. destruct Hcov as [Hcs Hl].
  cbn [flat_map]. rewrite (eq_100_not_lt_50 _ Hcs). exact (IH Hl).
Qed.

Lemma C8_no_recommendations_witness :
  generate_recommendations (analyze_resume_content LeftToRight complete_text) = [].
Proof.
  apply C8_no_recommendations; vm_compute; reflexivity.
Defined.

(** C9. For the empty text, the report has a word count of 0, a coverage
    percentage of 0 in the three keyword categories, the four important
    tags as missing sections, no e-mail, no phone and an overall score
    of 0. *)
Theorem C9_empty_text (impl : sum_impl) :
  let a := analyze_resume_content impl "" in
  word_count a = 0
  /\ map (fun cs => (fst cs, coverage_percentage (snd cs))) (keyword_scores a)
     = [ ("technical_skills", PFloat (S754_zero false));
         ("soft_skills", PFloat (S754_zero false));
         ("action_verbs", PFloat (S754_zero false)) ]
  /\ missing_sections a = ["contact_info"; "experience"; "education"; "skills"]
  /\ email (contact_info a) = None
  /\ phone (contact_info a) = None
  /\ overall_score a = Some (PFloat (S754_zero false)).
Proof.
  destruct impl; vm_compute; repeat split; reflexivity.
Qed.

(** C2. The e-mail field is the first match of the e-mail pattern, or
    none; the phone field is not the first match of the phone pattern
    but the text of the group of that match: for the text
    "555-123-4567", which the pattern matches as a whole, the field is
    the empty string. *)
Theorem C2_contact_fields :
  (forall text,
     email (extract_contact_info text) = option_map m_text (search email_pattern text))
  /\ (forall text,
        phone (extract_contact_info text)
        = option_map group_or_empty (search phone_pattern text))
  /\ option_map m_text (search phone_pattern "555-123-4567") = Some "555-123-4567"
  /\ phone (extract_contact_info "555-123-4567") = Some "".
Proof.
  split; [exact email_is_first_match|].
  split; [exact phone_is_first_group|].
  split; vm_compute; reflexivity.
Qed.

(** C3. For the text of the scenario, the detected sections are
    contact_info and experience and the e-mail is "jane@example.com";
    the phone pattern matches "555-123-4567", but the phone field is the
    empty string. *)
Theorem C3_scenario (impl : sum_impl) :
  let a := analyze_resume_content impl scenario_text in
  sections_found a = ["contact_info"; "experience"]
  /\ email (contact_info a) = Some "jane@example.com"
  /\ map m_text (finditer phone_pattern scenario_text) = ["555-123-4567"]
  /\ phone (contact_info a) = Some "".
Proof.
  destruct impl; vm_compute; repeat split; reflexivity.
Qed.

(** * Further properties of the script *)

Import Extractor Page Measure.

(** ** Recommendations *)

Lemma app_eq_nil_iff {A : Type} (l m : list A) : l ++ m = [] <-> l = [] /\ m = [].
Proof.
  split.
  - destruct l; simpl; [auto | discriminate].
  - intros [-> ->]. reflexivity.
Qed.

Lemma map_eq_nil_iff {A B : Type} (f : A -> B) (l : list A) : map f l = [] <-> l = [].
Proof. destruct l; simpl; split; auto; discriminate. Qed.

Lemma flat_map_if_nil {A B : Type} (c : A -> bool) (f : A -> B) (l : list A) :
  flat_map (fun x => if c x then [f x] else []) l = []
  <-> forallb (fun x => negb (c x)) l = true.
Proof.
  induction l as [|x l IH]; simpl.
  - tauto.
  - destruct (c x); simpl.
    + split; discriminate.
    + exact IH.
Qed.

Lemma flat_map_if_length {A B : Type} (c : A -> bool) (f : A -> B) (l : list A) :
  List.length (flat_map (fun x => if c x then [f x] else []) l)
  = List.length (filter c l).
Proof.
  induction l as [|x l IH]; simpl; [reflexivity|].
  destruct (c x); simpl; now rewrite IH.
Qed.

(** X1. For every report, the list of recommendations is empty exactly
    when no section is missing, no keyword category has a coverage
    percentage below 50, and the e-mail and the phone are both present
    (not [None] and not empty). *)
Theorem X1_recommendations_empty_iff (a : analysis) :
  generate_recommendations a = []
  <-> missing_sections a = []
      /\ forallb (fun cs => negb (py_lt (coverage_percentage (snd cs)) (PInt 50)))
                 (keyword_scores a) = true
      /\ truthy (email (contact_info a)) = true
      /\ truthy (phone (contact_info a)) = true.
Proof.
  rewrite generate_recommendations_blocks.
  rewrite !app_eq_nil_iff, map_eq_nil_iff.
  rewrite (flat_map_if_nil (fun cs => py_lt (coverage_percentage (snd cs)) (PInt 50))).
  destruct (truthy (email (contact_info a))), (truthy (phone (contact_info a)));
    intuition discriminate.
Qed.

(** X2. For every report, the number of recommendations is the number of
    missing sections, plus the number of keyword categories whose
    coverage percentage is below 50, plus one for an absent e-mail and
    one for an absent phone; every line starts with "Add "; and a report
    of the analyzer gets at most 9 recommendations. *)
Theorem X2_recommendations_count :
  (forall a : analysis,
     List.length (generate_recommendations a)
     = List.length (missing_sections a)
       + List.length (filter (fun cs => py_lt (coverage_percentage (snd cs)) (PInt 50))
                             (keyword_scores a))
       + (if truthy (email (contact_info a)) then 0 else 1)
       + (if truthy (phone (contact_info a)) then 0 else 1))
  /\ (forall a : analysis,
        Forall (fun line => String.prefix "Add " line = true) (generate_recommendations a))
  /\ (forall (impl : sum_impl) (text : string),
        List.length (generate_recommendations (analyze_resume_content impl text)) <= 9).
Proof.
  assert (Hlen : forall a : analysis,
     List.length (generate_recommendations a)
     = List.length (missing_sections a)
       + List.length (filter (fun cs => py_lt (coverage_percentage (snd cs)) (PInt 50))
                             (keyword_scores a))
       + (if truthy (email (contact_info a)) then 0 else 1)
       + (if truthy (phone (contact_info a)) then 0 else 1)).
  { intros a. rewrite generate_recommendations_blocks.
    rewrite !length_app, length_map.
    rewrite (flat_map_if_length (fun cs => py_lt (coverage_percentage (snd cs)) (PInt 50))).
    destruct (truthy (email (contact_info a))), (truthy (phone (contact_info a)));
      simpl; lia. }
  split; [exact Hlen | split].
  - intros a. rewrite generate_recommendations_blocks.
    apply Forall_app; split; [|apply Forall_app; split; [|apply Forall_app; split]].
    + apply Forall_forall. intros line Hin. apply in_map_iff in Hin.
      destruct Hin as [s [<- _]]. reflexivity.
    + apply Forall_forall. intros line Hin. apply in_flat_map in Hin.
      destruct Hin as [cs [_ Hin]].
      destruct (py_lt (coverage_percentage (snd cs)) (PInt 50)); [|contradiction].
      destruct Hin as [<- | []]. reflexivity.
    + destruct (truthy (email (contact_info a))); repeat constructor.
    + destruct (truthy (phone (contact_info a))); repeat constructor.
  - intros impl text. rewrite Hlen.
    set (a := analyze_resume_content impl text).
    assert (H1 : List.length (missing_sections a) <= 4).
    { apply (filter_length_le _ important_sections). }
    assert (H2 : List.length (filter (fun cs => py_lt (coverage_percentage (snd cs)) (PInt 50))
                                     (keyword_scores a)) <= 3).
    { etransitivity; [apply filter_length_le|].
      unfold a, analyze_resume_content, analyze_keywords; cbn [keyword_scores].
      rewrite length_map. apply Nat.le_refl. }
    destruct (truthy (email (contact_info a))), (truthy (phone (contact_info a))); lia.
Qed.

(** ** Coverage percentages *)

Lemma coverage_facts_checked :
  forallb (check_coverage 9) (seq 0 10)
  && forallb (check_coverage 5) (seq 0 6)
  && forallb (check_coverage 6) (seq 0 7) = true.
Proof. vm_compute. reflexivity. Qed.

Lemma filter_length_full {A : Type} (f : A -> bool) (l : list A) :
  List.length (filter f l) = List.length l -> filter f l = l.
Proof.
  induction l as [|x l IH]; simpl; [reflexivity|].
  destruct (f x); simpl; intros H.
  - f_equal. apply IH. lia.
  - pose proof (filter_length_le f l). lia.
Qed.

(** No keyword is missing exactly when all are found. *)
Lemma missing_nil_iff (text_lower : string) (keywords : list string) :
  missing_keywords (score_category text_lower keywords) = []
  <-> List.length (found_keywords (score_category text_lower keywords))
      = List.length keywords.
Proof.
  cbn [missing_keywords found_keywords score_category].
  rewrite missing_is_complement.
  pose proof (filter_length (fun kw => contains kw text_lower) keywords) as Hlen.
  rewrite <- length_zero_iff_nil. lia.
Qed.

(** What the exhaustive check says about the coverage percentage of one
    category. *)
Lemma score_category_coverage (text_lower : string) (keywords : list string) :
  forallb (check_coverage (List.length keywords)) (seq 0 (S (List.length keywords))) = true ->
  let sc := score_category text_lower keywords in
  let c := coverage_percentage sc in
  (py_le (PInt 0) c = true /\ py_le c (PInt 100) = true
   /\ py_le (PInt 0) (progress_value c) = true /\ py_le (progress_value c) (PInt 1) = true)
  /\ py_lt c (PInt 50) = (2 * List.length (found_keywords sc) <? List.length keywords)%nat
  /\ (c = hundred <-> missing_keywords sc = []).
Proof.
  intros Hall sc c.
  assert (Hk : List.length (found_keywords sc) <= List.length keywords)
    by apply filter_length_le.
  assert (Hc : c = coverage_of_count (List.length (found_keywords sc)) (List.length keywords))
    by apply coverage_percentage_count.
  assert (Hchk : check_coverage (List.length keywords) (List.length (found_keywords sc)) = true).
  { apply (proj1 (forallb_forall _ _) Hall). apply in_seq. lia. }
  unfold check_coverage in Hchk. rewrite <- Hc in Hchk.
  rewrite !andb_true_iff in Hchk.
  destruct Hchk as [[[[[H100 H0] Hle] Hp0] Hp1] H50].
  apply Bool.eqb_prop in H100, H50.
  repeat split; try assumption.
  - intros Heq. apply missing_nil_iff. fold sc. apply Nat.eqb_eq.
    rewrite <- H100, Heq. vm_compute. reflexivity.
  - intros Hmis. apply missing_nil_iff in Hmis. fold sc in Hmis.
    apply Nat.eqb_eq in Hmis. apply pynum_same_eq. now rewrite H100.
Qed.

Lemma keyword_scores_coverage (text : string) :
  Forall2
    (fun ck cs =>
       cs = (fst ck, score_category (lower text) (snd ck))
       /\ forallb (check_coverage (List.length (snd ck)))
                  (seq 0 (S (List.length (snd ck)))) = true)
    keyword_categories (analyze_keywords text).
Proof.
  pose proof coverage_facts_checked as Hc.
  rewrite !andb_true_iff in Hc. destruct Hc as [[H9 H5] H6].
  unfold analyze_keywords. apply Forall2_map_right.
  unfold keyword_categories.
  repeat apply Forall_cons; try apply Forall_nil; (split; [reflexivity | assumption]).
Qed.

(** X3. For every text and every keyword category, the coverage
    percentage lies between 0 and 100, and the value [percentage/100]
    that the page passes to the progress bar lies between 0 and 1. *)
Theorem X3_coverage_in_range (text : string) :
  Forall
    (fun cs =>
       let c := coverage_percentage (snd cs) in
       py_le (PInt 0) c = true /\ py_le c (PInt 100) = true
       /\ py_le (PInt 0) (progress_value c) = true
       /\ py_le (progress_value c) (PInt 1) = true)
    (analyze_keywords text).
Proof.
  pose proof (keyword_scores_coverage text) as H.
  induction H as [|ck cs l l' [-> Hall] _ IH]; constructor; [|exact IH].
  apply (score_category_coverage (lower text) (snd ck) Hall).
Qed.

(** X4. For every text and every keyword category, the coverage
    percentage is below 50, which is when the category gets a
    recommendation, exactly when fewer than half of its keywords are
    found; and it is 100.0 exactly when no keyword is missing. *)
Theorem X4_coverage_thresholds (text : string) :
  Forall2
    (fun ck cs =>
       py_lt (coverage_percentage (snd cs)) (PInt 50)
       = (2 * List.length (found_keywords (snd cs)) <? List.length (snd ck))%nat
       /\ (coverage_percentage (snd cs) = PFloat (of_int 100)
           <-> missing_keywords (snd cs) = []))
    keyword_categories (analyze_keywords text).
Proof.
  pose proof (keyword_scores_coverage text) as H.
  induction H as [|ck cs l l' [-> Hall] _ IH]; constructor; [|exact IH].
  apply (score_category_coverage (lower text) (snd ck) Hall).
Qed.

(** ** The score and its card *)

Lemma card_cases_checked : forallb check_card all_cases = true.
Proof. vm_compute. reflexivity. Qed.

(** The case of the report of a text, spelled out. *)
Lemma case_of_report (impl : sum_impl) (text : string) :
  case_of (analyze_resume_content impl text)
  = (List.length (detect_sections text),
     coverage_percentage (score_category (lower text)
       ["python"; "java"; "javascript"; "sql"; "html"; "css"; "react"; "git"; "aws"]),
     coverage_percentage (score_category (lower text)
       ["communication"; "leadership"; "teamwork"; "problem solving"; "time management"]),
     coverage_percentage (score_category (lower text)
       ["developed"; "managed"; "implemented"; "created"; "led"; "analyzed"]),
     truthy (email (extract_contact_info text)) || truthy (phone (extract_contact_info text))).
Proof. reflexivity. Qed.

(** The report of a text falls in its case of the score table, and its
    score is the score of the case. *)
Lemma report_in_case (impl : sum_impl) (text : string) :
  let a := analyze_resume_content impl text in
  In (case_of a) all_cases
  /\ calculate_overall_score impl a
     = (let '(n, c1, c2, c3, b) := case_of a in
        calculate_overall_score LeftToRight (report_of n c1 c2 c3 (contact_of_bool b))).
Proof.
  intros a. unfold a. rewrite case_of_report.
  assert (Hin : In (List.length (detect_sections text),
     coverage_percentage (score_category (lower text)
       ["python"; "java"; "javascript"; "sql"; "html"; "css"; "react"; "git"; "aws"]),
     coverage_percentage (score_category (lower text)
       ["communication"; "leadership"; "teamwork"; "problem solving"; "time management"]),
     coverage_percentage (score_category (lower text)
       ["developed"; "managed"; "implemented"; "created"; "led"; "analyzed"]),
     truthy (email (extract_contact_info text)) || truthy (phone (extract_contact_info text)))
     all_cases).
  { rewrite !coverage_percentage_count. apply In_all_cases.
    - apply detect_sections_length.
    - apply In_coverages. apply (filter_length_le _ [_; _; _; _; _; _; _; _; _]).
    - apply In_coverages. apply (filter_length_le _ [_; _; _; _; _]).
    - apply In_coverages. apply (filter_length_le _ [_; _; _; _; _; _]). }
  split; [exact Hin|].
  pose proof (proj1 (forallb_forall check_case all_cases) all_cases_checked _ Hin) as Hc.
  unfold check_case in Hc.
  rewrite !andb_true_iff in Hc. destruct Hc as [[[_ H2] _] _].
  apply pynum_same_eq in H2.
  transitivity (calculate_overall_score impl
    (report_of (List.length (detect_sections text))
       (coverage_percentage (score_category (lower text)
         ["python"; "java"; "javascript"; "sql"; "html"; "css"; "react"; "git"; "aws"]))
       (coverage_percentage (score_category (lower text)
         ["communication"; "leadership"; "teamwork"; "problem solving"; "time management"]))
       (coverage_percentage (score_category (lower text)
         ["developed"; "managed"; "implemented"; "created"; "led"; "analyzed"]))
       (contact_of_bool (truthy (email (extract_contact_info text))
                         || truthy (phone (extract_contact_info text)))))).
  - rewrite !calculate_overall_score_core.
    cbn [contact_info analyze_resume_content].
    rewrite (contact_score_bool (extract_contact_info text)).
    unfold report_of; cbn [sections_found keyword_scores contact_info map snd coverage_percentage].
    rewrite repeat_length. reflexivity.
  - destruct impl; [reflexivity | exact H2].
Qed.

(** X5. For every text, the overall score is at most 80; it is at least
    10 when the e-mail or the phone field is non-empty, and at most 70
    otherwise. *)
Theorem X5_score_bounds (impl : sum_impl) (text : string) :
  let a := analyze_resume_content impl text in
  let s := calculate_overall_score impl a in
  overall_score a = Some s
  /\ py_le s (PInt 80) = true
  /\ (if truthy (email (contact_info a)) || truthy (phone (contact_info a))
      then py_le (PInt 10) s else py_le s (PInt 70)) = true.
Proof.
  intros a s. split; [reflexivity|].
  destruct (report_in_case impl text) as [Hin Hs]. fold a in Hin, Hs. fold s in Hs.
  pose proof (proj1 (forallb_forall check_card all_cases) card_cases_checked _ Hin) as Hc.
  unfold a in Hc, Hs. rewrite case_of_report in Hc, Hs. fold a in Hs.
  unfold check_card in Hc. rewrite <- Hs in Hc.
  rewrite !andb_true_iff in Hc. destruct Hc as [[H80 Hb] _].
  split; assumption.
Qed.

(** X6. For every text, the page shows the card "Excellent" (a score of
    80 or more) exactly when all five sections are detected, no keyword
    of any category is missing and the e-mail or the phone field is
    non-empty. *)
Theorem X6_excellent_iff_complete (impl : sum_impl) (text : string) :
  let a := analyze_resume_content impl text in
  card_of (calculate_overall_score impl a) = Excellent
  <-> sections_found a = ["contact_info"; "experience"; "education"; "skills"; "projects"]
      /\ Forall (fun cs => missing_keywords (snd cs) = []) (keyword_scores a)
      /\ truthy (email (contact_info a)) || truthy (phone (contact_info a)) = true.
Proof.
  intros a.
  destruct (report_in_case impl text) as [Hin Hs]. fold a in Hin, Hs.
  pose proof (proj1 (forallb_forall check_card all_cases) card_cases_checked _ Hin) as Hc.
  unfold a in Hc, Hs. rewrite case_of_report in Hc, Hs. fold a in Hs.
  unfold check_card in Hc. rewrite <- Hs in Hc.
  rewrite !andb_true_iff in Hc. destruct Hc as [_ Hc]. apply Bool.eqb_prop in Hc.
  assert (Hcard : card_of (calculate_overall_score impl a) = Excellent
                  <-> py_le (PInt 80) (calculate_overall_score impl a) = true).
  { unfold card_of.
    destruct (py_le (PInt 80) (calculate_overall_score impl a));
      [tauto | destruct (py_le (PInt 60) (calculate_overall_score impl a))];
      split; discriminate. }
  rewrite Hcard, Hc, !andb_true_iff.
  assert (Hsec : (List.length (detect_sections text) =? 5)%nat = true
                 <-> sections_found a
                     = ["contact_info"; "experience"; "education"; "skills"; "projects"]).
  { rewrite Nat.eqb_eq. change (sections_found a) with (detect_sections text).
    unfold detect_sections. rewrite length_map. split.
    - intros H. rewrite (filter_length_full _ section_patterns H). reflexivity.
    - intros H. apply (f_equal (@List.length string)) in H.
      rewrite length_map in H. exact H. }
  assert (Hcov : forall kws,
            forallb (check_coverage (List.length kws)) (seq 0 (S (List.length kws))) = true ->
            pynum_same (coverage_percentage (score_category (lower text) kws)) hundred = true
            <-> missing_keywords (score_category (lower text) kws) = []).
  { intros kws Hall.
    destruct (score_category_coverage (lower text) kws Hall) as (_ & _ & Hiff).
    rewrite <- Hiff. split; [apply pynum_same_eq|].
    intros ->. vm_compute. reflexivity. }
  pose proof coverage_facts_checked as Hchk.
  rewrite !andb_true_iff in Hchk. destruct Hchk as [[H9 H5] H6].
  change (keyword_scores a) with (analyze_keywords text).
  unfold analyze_keywords, keyword_categories. cbn [map fst snd].
  rewrite !Forall_cons_iff, Forall_nil_iff. cbn [snd].
  rewrite Hsec.
  rewrite (Hcov ["python"; "java"; "javascript"; "sql"; "html"; "css"; "react"; "git"; "aws"]
                H9).
  rewrite (Hcov ["communication"; "leadership"; "teamwork"; "problem solving";
                 "time management"] H5).
  rewrite (Hcov ["developed"; "managed"; "implemented"; "created"; "led"; "analyzed"] H6).
  change (contact_info a) with (extract_contact_info text).
  tauto.
Qed.

(** ** Lower case and substrings *)

Lemma lower_app (s t : string) : lower (s ++ t) = (lower s ++ lower t)%string.
Proof.
  unfold lower. induction s as [|c s IH]; cbn [map_chars String.append]; [reflexivity|].
  now rewrite IH.
Qed.

Lemma prefix_cons (a b : ascii) (p s : string) :
  String.prefix (String a p) (String b s) = Ascii.eqb a b && String.prefix p s.
Proof.
  simpl. destruct (ascii_dec a b) as [->|Hne].
  - now rewrite Ascii.eqb_refl.
  - apply Ascii.eqb_neq in Hne. now rewrite Hne.
Qed.

Lemma prefix_nil (s : string) : String.prefix "" s = true.
Proof. destruct s; reflexivity. Qed.

Lemma prefix_app (p s t : string) :
  String.prefix p s = true -> String.prefix p (s ++ t) = true.
Proof.
  revert p. induction s as [|b s IH]; intros p H.
  - destruct p; [apply prefix_nil | discriminate].
  - destruct p as [|a p]; [reflexivity|].
    cbn [String.append]. rewrite prefix_cons in *.
    apply andb_true_iff in H. destruct H as [-> H]. now apply IH.
Qed.

Lemma prefix_trans (a b s : string) :
  String.prefix a b = true -> String.prefix b s = true -> String.prefix a s = true.
Proof.
  revert a b. induction s as [|c s IH]; intros a b Hab Hbs.
  - destruct b; [|discriminate]. destruct a; [reflexivity | discriminate].
  - destruct a as [|x a]; [reflexivity|].
    destruct b as [|y b]; [discriminate|].
    rewrite prefix_cons in *.
    apply andb_true_iff in Hab, Hbs. destruct Hab as [Hxy Hab], Hbs as [Hyc Hbs].
    apply Ascii.eqb_eq in Hxy, Hyc. subst. rewrite Ascii.eqb_refl. simpl.
    now apply (IH a b).
Qed.

Lemma contains_cons (w : string) (c : ascii) (s : string) :
  contains w (String c s) = String.prefix w (String c s) || contains w s.
Proof. reflexivity. Qed.

Lemma contains_nil (w : string) : contains w "" = String.prefix w "".
Proof. simpl. apply orb_false_r. Qed.

Lemma contains_app_l (w s t : string) :
  contains w s = true -> contains w (s ++ t) = true.
Proof.
  induction s as [|c s IH]; intros H.
  - simpl in H. rewrite orb_false_r in H.
    destruct w; [|discriminate]. destruct t; reflexivity.
  - cbn [String.append]. rewrite contains_cons in *.
    apply orb_true_iff in H. apply orb_true_iff. destruct H as [H | H].
    + left. apply (prefix_app w (String c s) t H).
    + right. now apply IH.
Qed.

Lemma contains_app_r (w s t : string) :
  contains w t = true -> contains w (s ++ t) = true.
Proof.
  intros H. induction s as [|c s IH]; [exact H|].
  cbn [String.append]. rewrite contains_cons, IH. apply orb_true_r.
Qed.

(** A text that contains a word contains the prefixes of the word. *)
Lemma contains_prefix (a b s : string) :
  String.prefix a b = true -> contains b s = true -> contains a s = true.
Proof.
  intros Hab. induction s as [|c s IH]; intros H.
  - simpl in *. rewrite orb_false_r in *. now apply (prefix_trans a b "").
  - rewrite contains_cons in *. apply orb_true_iff in H. apply orb_true_iff.
    destruct H as [H | H]; [left; now apply (prefix_trans a b) | right; now apply IH].
Qed.

(** ** Patterns that are lists of words *)

Lemma match_lit_prefix (l : string) (prev : option ascii) (s : string) :
  is_some (match_lit l prev s) = String.prefix l s.
Proof.
  revert prev s. induction l as [|a l IH]; intros prev s.
  - simpl. now rewrite prefix_nil.
  - destruct s as [|c s]; [reflexivity|].
    rewrite prefix_cons. simpl.
    destruct (Ascii.eqb a c); [apply IH | reflexivity].
Qed.

Lemma existsb_orb {A : Type} (f g : A -> bool) (l : list A) :
  existsb (fun x => f x || g x) l = existsb f l || existsb g l.
Proof.
  induction l as [|x l IH]; simpl; [reflexivity|].
  rewrite IH. destruct (f x), (g x), (existsb f l), (existsb g l); reflexivity.
Qed.

Lemma existsb_same {A : Type} (f g : A -> bool) (l : list A) :
  (forall x, f x = g x) -> existsb f l = existsb g l.
Proof.
  intros H. induction l as [|x l IH]; simpl; [reflexivity|]. now rewrite H, IH.
Qed.

(** A pattern of words matches where one of its words is a prefix. *)
Lemma rmatch_words {R : Type} (r : regex) :
  literal_only r = true ->
  forall (prev : option ascii) (s : string) (g : option string)
         (k : option ascii -> string -> option string -> option R),
    (forall p s' g', is_some (k p s' g') = true) ->
    is_some (rmatch r prev s g k) = existsb (fun w => String.prefix w s) (words r).
Proof.
  induction r as [l|cs| |a IHa b IHb|a IHa b IHb|a IHa|cs lo hi|a IHa];
    try discriminate; cbn [literal_only]; intros Hlit prev s g k Hk.
  - cbn [rmatch words existsb]. rewrite orb_false_r, <- (match_lit_prefix l prev s).
    destruct (match_lit l prev s) as [[p s']|]; [apply Hk | reflexivity].
  - apply andb_true_iff in Hlit. destruct Hlit as [Ha Hb].
    cbn [rmatch words]. rewrite existsb_app.
    rewrite <- (IHa Ha prev s g k Hk), <- (IHb Hb prev s g k Hk).
    destruct (rmatch a prev s g k); reflexivity.
  - cbn [rmatch words]. apply (IHa Hlit). intros p s' g'. apply Hk.
Qed.

(** [re.search] with a pattern of words finds a match exactly in the
    texts that contain one of the words. *)
Lemma search_words (r : regex) (text : string) :
  literal_only r = true ->
  is_some (search r text) = existsb (fun w => contains w text) (words r).
Proof.
  intros Hlit. unfold search. generalize 0 (@None ascii).
  induction text as [|c s IH]; intros pos prev.
  - cbn [search_from]. unfold match_here.
    pose proof (rmatch_words r Hlit prev ""%string None
      (fun _ s' g => Some (String.length ""%string - String.length s', g))
      (fun _ _ _ => eq_refl)) as H.
    destruct (rmatch r prev "" None _) as [[len g]|]; cbn [is_some] in *; rewrite H;
      apply existsb_same; intros w; simpl; now rewrite orb_false_r.
  - cbn [search_from]. unfold match_here.
    pose proof (rmatch_words r Hlit prev (String c s) None
      (fun _ s' g => Some (String.length (String c s) - String.length s', g))
      (fun _ _ _ => eq_refl)) as H.
    transitivity (existsb (fun w => String.prefix w (String c s) || contains w s) (words r));
      [|apply existsb_same; intros w; now rewrite contains_cons].
    rewrite existsb_orb, <- (IH (S pos) (Some c)), <- H.
    destruct (rmatch r prev (String c s) None _) as [[len g]|]; reflexivity.
Qed.

Lemma detect_by_words (text_lower : string) (patterns : list (string * regex)) :
  Forall (fun sp => literal_only (snd sp) = true) patterns ->
  map fst (filter (fun sp => is_some (search (snd sp) text_lower)) patterns)
  = map fst (filter (fun tw => existsb (fun w => contains w text_lower) (snd tw))
                    (map (fun sp => (fst sp, words (snd sp))) patterns)).
Proof.
  induction 1 as [|sp l Hsp _ IH]; [reflexivity|].
  cbn [map filter fst snd]. rewrite (search_words _ _ Hsp).
  destruct (existsb (fun w => contains w text_lower) (words (snd sp)));
    cbn [map fst]; now rewrite IH.
Qed.

Lemma section_patterns_literal :
  Forall (fun sp => literal_only (snd sp) = true) section_patterns.
Proof. repeat constructor. Qed.

Lemma detect_sections_In (text tag : string) :
  In tag (detect_sections text)
  <-> exists ws, In (tag, ws) (map (fun sp => (fst sp, words (snd sp))) section_patterns)
                 /\ existsb (fun w => contains w (lower text)) ws = true.
Proof.
  unfold detect_sections.
  rewrite (detect_by_words (lower text) section_patterns section_patterns_literal).
  rewrite in_map_iff. split.
  - intros [[t ws] [<- Hin]]. apply filter_In in Hin. exists ws. exact Hin.
  - intros [ws Hin]. exists (tag, ws). split; [reflexivity|]. now apply filter_In.
Qed.

Lemma contains_inside (w u t v : string) :
  contains w (lower t) = true -> contains w (lower (u ++ t ++ v)) = true.
Proof.
  intros H. rewrite !lower_app. apply contains_app_r, contains_app_l, H.
Qed.

(** X8. Text around a text takes nothing away: every section detected
    in a text and every keyword found in it is also detected or found
    in any text that has it as a part. *)
Theorem X8_context_keeps_findings (u t v : string) :
  incl (detect_sections t) (detect_sections (u ++ t ++ v))
  /\ Forall2 (fun cs cs' =>
                fst cs = fst cs'
                /\ incl (found_keywords (snd cs)) (found_keywords (snd cs')))
             (analyze_keywords t) (analyze_keywords (u ++ t ++ v)).
Proof.
  split.
  - intros tag H. apply detect_sections_In in H. apply detect_sections_In.
    destruct H as [ws [Hin Hex]]. exists ws. split; [exact Hin|].
    apply existsb_exists in Hex. apply existsb_exists.
    destruct Hex as [w [Hw Hc]]. exists w. split; [exact Hw|].
    now apply contains_inside.
  - unfold analyze_keywords.
    induction keyword_categories as [|ck l IH]; cbn [map]; constructor; [|exact IH].
    split; [reflexivity|]. cbn [snd found_keywords score_category].
    intros kw H. apply filter_In in H. apply filter_In.
    destruct H as [Hin Hc]. split; [exact Hin | now apply contains_inside].
Qed.

(** X9. Keywords are matched as substrings, not as words: the keyword
    "java" is found in every text in which "javascript" is found. *)
Theorem X9_javascript_implies_java (text : string) :
  Forall (fun cs =>
            In "javascript" (found_keywords (snd cs)) -> In "java" (found_keywords (snd cs)))
         (analyze_keywords text).
Proof.
  unfold analyze_keywords, keyword_categories. cbn [map fst snd].
  repeat constructor; cbn [snd found_keywords score_category];
    intros H; apply filter_In in H; destruct H as [Hin Hc].
  - apply filter_In. split; [cbn [In]; tauto|].
    now apply (contains_prefix "java" "javascript").
  - cbn [In] in Hin. exfalso. intuition discriminate.
  - cbn [In] in Hin. exfalso. intuition discriminate.
Qed.

(** ** The length of matches *)

Lemma substring_length (n : nat) (s : string) :
  n <= String.length s -> String.length (substring 0 n s) = n.
Proof.
  revert n. induction s as [|c s IH]; intros n H.
  - destruct n; [reflexivity | simpl in H; lia].
  - destruct n as [|n]; [reflexivity|].
    cbn [substring String.length] in *. rewrite IH; lia.
Qed.

Lemma prefix_substring (n : nat) (s : string) : String.prefix (substring 0 n s) s = true.
Proof.
  revert n. induction s as [|c s IH]; intros n.
  - destruct n; reflexivity.
  - destruct n as [|n]; [reflexivity|].
    cbn [substring]. rewrite prefix_cons, Ascii.eqb_refl. apply IH.
Qed.

Lemma match_lit_length (l : string) (prev p : option ascii) (s s' : string) :
  match_lit l prev s = Some (p, s') ->
  String.length s = String.length l + String.length s'.
Proof.
  revert prev s. induction l as [|a l IH]; intros prev s H.
  - simpl in H. injection H as _ ->. reflexivity.
  - destruct s as [|c s]; [discriminate|].
    cbn [match_lit] in H. destruct (Ascii.eqb a c); [|discriminate].
    apply IH in H. cbn [String.length]. lia.
Qed.

Lemma match_rep_sound {R : Type} (cs : cset) (lo : nat) (hi : option nat)
      (k : option ascii -> string -> option R) (x : R) (s : string) :
  forall (n : nat) (prev : option ascii),
    match_rep cs lo hi n prev s k = Some x ->
    exists p' s',
      k p' s' = Some x
      /\ String.length s' <= String.length s
      /\ lo <= n + (String.length s - String.length s')
      /\ (forall h, hi = Some h -> n <= h -> n + (String.length s - String.length s') <= h).
Proof.
  induction s as [|c s IH]; intros n prev H.
  - cbn [match_rep] in H. destruct (lo <=? n)%nat eqn:Hlo; [|discriminate].
    apply Nat.leb_le in Hlo. exists prev, ""%string. cbn [String.length].
    repeat split; try lia. exact H.
  - cbn [match_rep] in H.
    assert (Hstop : (if (lo <=? n)%nat then k prev (String c s) else None) = Some x ->
                    exists p' s',
                      k p' s' = Some x
                      /\ String.length s' <= String.length (String c s)
                      /\ lo <= n + (String.length (String c s) - String.length s')
                      /\ (forall h, hi = Some h -> n <= h ->
                            n + (String.length (String c s) - String.length s') <= h)).
    { intros Hs. destruct (lo <=? n)%nat eqn:Hlo; [|discriminate].
      apply Nat.leb_le in Hlo. exists prev, (String c s).
      repeat split; try lia. exact Hs. }
    destruct (match hi with Some h => (n <? h)%nat | None => true end && cset_mem cs c) eqn:Htake;
      [|now apply Hstop].
    destruct (match_rep cs lo hi (S n) (Some c) s k) as [r|] eqn:Hrec; [|now apply Hstop].
    injection H as ->.
    destruct (IH _ _ Hrec) as (p' & s' & Hk & Hlen & Hlo & Hhi).
    exists p', s'. cbn [String.length]. repeat split; try lia; [exact Hk|].
    intros h Hh Hn. apply andb_true_iff in Htake. destruct Htake as [Hlt _].
    rewrite Hh in Hlt. apply Nat.ltb_lt in Hlt.
    specialize (Hhi h Hh). lia.
Qed.

(** A successful match hands to the rest of the pattern a text that is
    shorter by a number of characters between the least and the
    greatest length of the pattern, and a group whose text has the
    length of the groups of the pattern. *)
Lemma rmatch_sound {R : Type} (lo hi : nat) (r : regex) :
  groups_within lo hi r = true ->
  forall (prev : option ascii) (s : string) (g : option string)
         (k : option ascii -> string -> option string -> option R) (x : R),
    rmatch r prev s g k = Some x ->
    exists p' s' g',
      k p' s' g' = Some x
      /\ String.length s' + min_len r <= String.length s
      /\ (forall m, max_len r = Some m -> String.length s <= String.length s' + m)
      /\ (group_within lo hi g -> group_within lo hi g').
Proof.
  induction r as [l|cs| |a IHa b IHb|a IHa b IHb|a IHa|cs rlo rhi|a IHa];
    cbn [groups_within]; intros Hg prev s g k x H; cbn [rmatch] in H.
  - destruct (match_lit l prev s) as [[p s']|] eqn:Hl; [|discriminate].
    apply match_lit_length in Hl. exists p, s', g. cbn [min_len max_len].
    repeat split; try lia; [exact H | | tauto].
    intros m Hm. injection Hm as <-. lia.
  - destruct s as [|c s]; [discriminate|].
    destruct (cset_mem cs c); [|discriminate].
    exists (Some c), s, g. cbn [min_len max_len String.length].
    repeat split; try lia; [exact H | | tauto].
    intros m Hm. injection Hm as <-. lia.
  - destruct (xorb _ _); [|discriminate].
    exists prev, s, g. cbn [min_len max_len].
    repeat split; try lia; [exact H | tauto].
  - apply andb_true_iff in Hg. destruct Hg as [Ha Hb].
    destruct (IHa Ha _ _ _ _ _ H) as (p1 & s1 & g1 & H1 & Hmin1 & Hmax1 & Hg1).
    destruct (IHb Hb _ _ _ _ _ H1) as (p2 & s2 & g2 & H2 & Hmin2 & Hmax2 & Hg2).
    exists p2, s2, g2. cbn [min_len max_len].
    repeat split; try lia; [exact H2 | | tauto].
    intros m Hm.
    destruct (max_len a) as [ma|]; [|discriminate].
    destruct (max_len b) as [mb|]; [|discriminate].
    injection Hm as <-. specialize (Hmax1 _ eq_refl). specialize (Hmax2 _ eq_refl). lia.
  - apply andb_true_iff in Hg. destruct Hg as [Ha Hb].
    assert (Hcase : rmatch a prev s g k = Some x \/ rmatch b prev s g k = Some x).
    { destruct (rmatch a prev s g k); [left; exact H | right; exact H]. }
    destruct Hcase as [H1 | H1];
      [destruct (IHa Ha _ _ _ _ _ H1) as (p' & s' & g' & Hk & Hmin & Hmax & Hgw)
      |destruct (IHb Hb _ _ _ _ _ H1) as (p' & s' & g' & Hk & Hmin & Hmax & Hgw)];
      exists p', s', g'; cbn [min_len max_len];
      (repeat split; try lia; [exact Hk | | tauto]);
      intros m Hm;
      (destruct (max_len a) as [ma|]; [|discriminate]);
      (destruct (max_len b) as [mb|]; [|discriminate]);
      injection Hm as <-; specialize (Hmax _ eq_refl); lia.
  - assert (Hcase : rmatch a prev s g k = Some x \/ k prev s g = Some x).
    { destruct (rmatch a prev s g k); [left; exact H | right; exact H]. }
    destruct Hcase as [H1 | H1].
    + destruct (IHa Hg _ _ _ _ _ H1) as (p' & s' & g' & Hk & Hmin & Hmax & Hgw).
      exists p', s', g'. cbn [min_len max_len].
      repeat split; try lia; [exact Hk | exact Hmax | tauto].
    + exists prev, s, g. cbn [min_len max_len].
      repeat split; try lia; [exact H1 | tauto].
  - destruct (match_rep_sound _ _ _ _ _ _ _ _ H) as (p' & s' & Hk & Hlen & Hlo & Hhi).
    exists p', s', g. cbn [min_len max_len].
    repeat split; try lia; [exact Hk | | tauto].
    intros m Hm. specialize (Hhi m Hm). lia.
  - rewrite !andb_true_iff in Hg. destruct Hg as [[Hlo Hhi] Ha].
    apply Nat.leb_le in Hlo.
    destruct (max_len a) as [ma|] eqn:Hma; [|discriminate]. apply Nat.leb_le in Hhi.
    destruct (IHa Ha _ _ _ _ _ H) as (p' & s' & g' & Hk & Hmin & Hmax & _).
    specialize (Hmax _ eq_refl).
    exists p', s', (Some (substring 0 (String.length s - String.length s') s)).
    cbn [min_len max_len]. rewrite Hma.
    split; [exact Hk|]. split; [lia|]. split.
    + intros m Hm. injection Hm as <-. lia.
    + intros _. cbn [group_within]. rewrite substring_length; lia.
Qed.

Lemma match_here_sound (lo hi : nat) (r : regex) (prev : option ascii) (s : string)
      (len : nat) (g : option string) :
  groups_within lo hi r = true ->
  match_here r prev s = Some (len, g) ->
  min_len r <= len <= String.length s
  /\ (forall m, max_len r = Some m -> len <= m)
  /\ group_within lo hi g.
Proof.
  intros Hg H. unfold match_here in H.
  destruct (rmatch_sound lo hi r Hg _ _ _ _ _ H) as (p' & s' & g' & Hk & Hmin & Hmax & Hgw).
  injection Hk as <- <-.
  repeat split; try lia.
  - intros m Hm. specialize (Hmax m Hm). lia.
  - apply Hgw. exact I.
Qed.

(** The first match of a pattern in a text: its text is a part of the
    text, with a length between the least and the greatest length of
    the pattern. *)
Lemma search_from_sound (lo hi : nat) (r : regex) (m : match_obj) (s : string) :
  groups_within lo hi r = true ->
  forall (pos : nat) (prev : option ascii),
    search_from r pos prev s = Some m ->
    min_len r <= String.length (m_text m)
    /\ (forall n, max_len r = Some n -> String.length (m_text m) <= n)
    /\ group_within lo hi (m_group m)
    /\ contains (m_text m) s = true.
Proof.
  intros Hg.
  assert (Hhere : forall prev s len g,
            match_here r prev s = Some (len, g) ->
            min_len r <= String.length (substring 0 len s)
            /\ (forall n, max_len r = Some n -> String.length (substring 0 len s) <= n)
            /\ group_within lo hi g
            /\ String.prefix (substring 0 len s) s = true).
  { intros prev s0 len g H.
    destruct (match_here_sound lo hi r prev s0 len g Hg H) as (Hlen & Hmax & Hgw).
    rewrite substring_length by lia.
    repeat split; try lia; [exact Hmax | exact Hgw | apply prefix_substring]. }
  induction s as [|c s IH]; intros pos prev H; cbn [search_from] in H.
  - destruct (match_here r prev "") as [[len g]|] eqn:Hm; [|discriminate].
    injection H as <-.
    destruct (Hhere _ _ _ _ Hm) as (H1 & H2 & H3 & H4).
    split; [exact H1|]. split; [exact H2|]. split; [exact H3|].
    change (contains (substring 0 len "") "" = true).
    rewrite contains_nil. exact H4.
  - destruct (match_here r prev (String c s)) as [[len g]|] eqn:Hm.
    + injection H as <-.
      destruct (Hhere _ _ _ _ Hm) as (H1 & H2 & H3 & H4).
      split; [exact H1|]. split; [exact H2|]. split; [exact H3|].
      change (contains (substring 0 len (String c s)) (String c s) = true).
      rewrite contains_cons, H4. reflexivity.
    + destruct (IH _ _ H) as (H1 & H2 & H3 & H4).
      split; [exact H1|]. split; [exact H2|]. split; [exact H3|].
      rewrite contains_cons, H4. apply orb_true_r.
Qed.

(** ** The contact fields *)

Lemma email_pattern_measure :
  groups_within 0 0 email_pattern = true /\ min_len email_pattern = 6.
Proof. split; reflexivity. Qed.

Lemma truthy_nonempty (s : string) : 1 <= String.length s -> truthy (Some s) = true.
Proof. destruct s; simpl; [lia | reflexivity]. Qed.

(** X11. An e-mail that the analyzer extracts has at least 6
    characters, is a part of the text, and counts as present. *)
Theorem X11_email_field (text e : string) :
  email (extract_contact_info text) = Some e ->
  6 <= String.length e /\ contains e text = true /\ truthy (Some e) = true.
Proof.
  rewrite email_is_first_match. intros H.
  destruct (search email_pattern text) as [m|] eqn:Hm; [|discriminate].
  injection H as <-.
  destruct email_pattern_measure as [Hg Hmin].
  destruct (search_from_sound 0 0 email_pattern m text Hg 0 None Hm) as (H1 & _ & _ & H4).
  rewrite Hmin in H1.
  split; [exact H1 | split; [exact H4 | apply truthy_nonempty; lia]].
Qed.

Lemma X11_email_field_witness :
  6 <= String.length "a@b.co" /\ contains "a@b.co" "Mail: a@b.co." = true
  /\ truthy (Some "a@b.co") = true.
Proof.
  apply (X11_email_field "Mail: a@b.co." "a@b.co"). vm_compute. reflexivity.
Defined.

(** ** Stripping and counting words *)

Lemma lstrip_head (s : string) (c : ascii) (t : string) :
  lstrip s = String c t -> is_space c = false.
Proof.
  induction s as [|d s IH]; [discriminate|].
  cbn [lstrip]. destruct (is_space d) eqn:Hd; [exact IH|].
  intros H. injection H as <- _. exact Hd.
Qed.

Lemma lstrip_fixed (c : ascii) (t : string) :
  is_space c = false -> lstrip (String c t) = String c t.
Proof. intros H. cbn [lstrip]. now rewrite H. Qed.

Lemma count_words_lstrip (s : string) : count_words (lstrip s) = count_words s.
Proof.
  unfold count_words. induction s as [|c s IH]; [reflexivity|].
  cbn [lstrip]. destruct (is_space c) eqn:Hc; [|reflexivity].
  rewrite IH. cbn [count_words_from]. now rewrite Hc.
Qed.

Lemma count_words_from_rstrip (s : string) (b : bool) :
  count_words_from b (rstrip s) = count_words_from b s.
Proof.
  revert b. induction s as [|c s IH]; intros b; [reflexivity|].
  cbn [rstrip]. destruct (rstrip s) as [|d r] eqn:Hr.
  - assert (Hz : forall b', count_words_from b' s = 0) by (intros b'; now rewrite <- IH).
    cbn [count_words_from]. destruct (is_space c) eqn:Hc.
    + now rewrite Hz.
    + cbn [count_words_from]. rewrite Hc, Hz. destruct b; reflexivity.
  - rewrite <- Hr in IH |- *. cbn [count_words_from]. rewrite !IH. reflexivity.
Qed.

Lemma count_words_zero_iff (s : string) : count_words s = 0 <-> lstrip s = "".
Proof.
  unfold count_words. induction s as [|c s IH]; [tauto|].
  cbn [count_words_from lstrip]. destruct (is_space c); [exact IH|].
  split; discriminate.
Qed.

Lemma rstrip_blank (s : string) : lstrip s = "" -> rstrip s = "".
Proof.
  induction s as [|c s IH]; [reflexivity|].
  cbn [lstrip rstrip]. destruct (is_space c); [|discriminate].
  intros H. now rewrite (IH H).
Qed.

(** A text strips to the empty string exactly when it has no word. *)
Lemma strip_empty_iff (s : string) : strip s = "" <-> count_words s = 0.
Proof.
  unfold strip. split; intros H.
  - rewrite <- count_words_lstrip. unfold count_words.
    rewrite <- count_words_from_rstrip, H. reflexivity.
  - apply count_words_zero_iff in H. now rewrite H.
Qed.

Lemma count_words_strip (s : string) : count_words (strip s) = count_words s.
Proof.
  unfold strip, count_words. rewrite count_words_from_rstrip. apply count_words_lstrip.
Qed.

Lemma rstrip_idempotent (s : string) : rstrip (rstrip s) = rstrip s.
Proof.
  induction s as [|c s IH]; [reflexivity|].
  cbn [rstrip]. destruct (rstrip s) as [|d r] eqn:Hr.
  - destruct (is_space c) eqn:Hc; [reflexivity|].
    cbn [rstrip]. now rewrite Hc.
  - rewrite <- Hr in IH |- *. cbn [rstrip]. rewrite IH, Hr. reflexivity.
Qed.

Lemma rstrip_keeps_head (c : ascii) (t : string) :
  is_space c = false -> exists r, rstrip (String c t) = String c r.
Proof.
  intros Hc. cbn [rstrip]. destruct (rstrip t) as [|d r].
  - rewrite Hc. now exists ""%string.
  - now exists (String d r).
Qed.

Lemma lstrip_strip (s : string) : lstrip (strip s) = strip s.
Proof.
  unfold strip. destruct (lstrip s) as [|c t] eqn:Hl; [reflexivity|].
  pose proof (lstrip_head _ _ _ Hl) as Hc.
  destruct (rstrip_keeps_head c t Hc) as [r ->]. now apply lstrip_fixed.
Qed.

Lemma rstrip_strip (s : string) : rstrip (strip s) = strip s.
Proof. unfold strip. apply rstrip_idempotent. Qed.

Lemma strip_idempotent (s : string) : strip (strip s) = strip s.
Proof.
  unfold strip at 1. rewrite lstrip_strip. apply rstrip_strip.
Qed.

(** ** Extraction and the page *)

Lemma extracted_is_stripped (f : uploaded_file) (text : string) :
  extract_text_from_file f = Some text ->
  strip text = text /\ (count_words text = 0 -> text = "").
Proof.
  unfold extract_text_from_file. intros H.
  destruct (if String.eqb (type f) "application/pdf"
            then option_map concat_lines (pdf_pages f)
            else if String.eqb (type f)
                      "application/vnd.openxmlformats-officedocument.wordprocessingml.document"
                 then option_map concat_lines (docx_paragraphs f)
                 else utf8_text f) as [raw|]; [|discriminate].
  injection H as <-. split; [apply strip_idempotent|].
  intros Hc. rewrite count_words_strip in Hc. now apply strip_empty_iff.
Qed.

(** X15. What the page does with an uploaded file: it reports an error
    exactly when a reader raises an exception; it reports that no text
    could be extracted exactly when the extracted text is empty; and
    otherwise it shows the report of the extracted text, its
    recommendations and the card of its score, and the report has at
    least one word. *)
Theorem X15_page_outcome (impl : sum_impl) (f : uploaded_file) :
  match analyze_upload impl f with
  | ErrorAnalyzing => extract_text_from_file f = None
  | CouldNotExtract => extract_text_from_file f = Some ""
  | Report a recommendations card =>
      exists text,
        extract_text_from_file f = Some text
        /\ a = analyze_resume_content impl text
        /\ recommendations = generate_recommendations a
        /\ card = card_of (calculate_overall_score impl a)
        /\ 1 <= word_count a
  end.
Proof.
  unfold analyze_upload.
  destruct (extract_text_from_file f) as [text|] eqn:He; [|reflexivity].
  destruct (extracted_is_stripped f text He) as [Hs Hw].
  rewrite Hs. destruct (String.eqb_spec text "") as [->|Hne]; [reflexivity|].
  cbn [overall_score analyze_resume_content].
  exists text. repeat split.
  change (1 <= count_words text). destruct (count_words text) eqn:Hc; [|lia].
  exfalso. apply Hne, Hw. reflexivity.
Qed.

(** ** Missing sections *)

(** X18. The missing sections depend on the detected tags as a set and
    shrink when it grows; so text around a text never adds a missing
    section, and no section is missing exactly when the four important
    tags are all detected. *)
Theorem X18_missing_sections_antitone :
  (forall found found' : list string,
     incl found found' ->
     incl (find_missing_sections found') (find_missing_sections found))
  /\ (forall u t v : string,
        incl (find_missing_sections (detect_sections (u ++ t ++ v)))
             (find_missing_sections (detect_sections t)))
  /\ (forall found : list string,
        find_missing_sections found = [] <-> incl important_sections found).
Proof.
  assert (Hanti : forall found found' : list string,
            incl found found' ->
            incl (find_missing_sections found') (find_missing_sections found)).
  { intros found found' Hincl s H. unfold find_missing_sections in *.
    apply filter_In in H. apply filter_In. destruct H as [Hs Hn].
    split; [exact Hs|]. apply not_mem_In. apply not_mem_In in Hn.
    intros Hin. apply Hn, Hincl, Hin. }
  split; [exact Hanti | split].
  - intros u t v. apply Hanti.
    intros tag H. apply detect_sections_In in H. apply detect_sections_In.
    destruct H as [ws [Hin Hex]]. exists ws. split; [exact Hin|].
    apply existsb_exists in Hex. apply existsb_exists.
    destruct Hex as [w [Hw Hc]]. exists w. split; [exact Hw|].
    now apply contains_inside.
  - intros found. unfold find_missing_sections. split.
    + intros H s Hs. destruct (mem s found) eqn:Hm; [now apply mem_In|].
      assert (Hin : In s (filter (fun section => negb (mem section found))
                                 important_sections)).
      { apply filter_In. split; [exact Hs | now rewrite Hm]. }
      rewrite H in Hin. contradiction.
    + intros H. destruct (filter (fun section => negb (mem section found))
                                 important_sections) as [|s l] eqn:Hf; [reflexivity|].
      assert (Hin : In s (filter (fun section => negb (mem section found))
                                 important_sections)) by (rewrite Hf; now left).
      apply filter_In in Hin. destruct Hin as [Hs Hn].
      apply not_mem_In in Hn. exfalso. apply Hn, H, Hs.
Qed.

(** * Properties over Unicode texts *)

(** ** The loops of [generate_recommendations] *)

Lemma ufold_append_map {A : Type} (f : A -> Unicode.text) (l : list A)
      (acc : list Unicode.text) :
  fold_left (fun recs x => UAnalyzer.append recs (f x)) l acc = acc ++ map f l.
Proof.
  revert acc. induction l as [|x l IH]; intros acc; cbn [fold_left map].
  - now rewrite app_nil_r.
  - rewrite IH. unfold UAnalyzer.append. now rewrite <- app_assoc.
Qed.

Lemma ufold_append_if {A : Type} (c : A -> bool) (f : A -> Unicode.text)
      (l : list A) (acc : list Unicode.text) :
  fold_left (fun recs x => if c x then UAnalyzer.append recs (f x) else recs) l acc
  = acc ++ flat_map (fun x => if c x then [f x] else []) l.
Proof.
  revert acc. induction l as [|x l IH]; intros acc; cbn [fold_left flat_map].
  - now rewrite app_nil_r.
  - rewrite IH. destruct (c x); cbn [app]; [|reflexivity].
    unfold UAnalyzer.append. now rewrite <- app_assoc.
Qed.


(** The recommendations over Unicode texts, block by block. *)
Lemma ugenerate_recommendations_blocks (db : Unicode.database) (a : UAnalyzer.analysis) :
  UAnalyzer.generate_recommendations db a
  = map (UAnalyzer.section_line db) (UAnalyzer.missing_sections a)
    ++ flat_map
         (fun cs =>
            if py_lt (UAnalyzer.coverage_percentage (snd cs)) (PInt 50)
            then [UAnalyzer.keyword_line (fst cs) (snd cs)] else [])
         (UAnalyzer.keyword_scores a)
    ++ (if UAnalyzer.truthy (UAnalyzer.email (UAnalyzer.contact_info a)) then []
        else [Unicode.lit "Add professional email address"])
    ++ (if UAnalyzer.truthy (UAnalyzer.phone (UAnalyzer.contact_info a)) then []
        else [Unicode.lit "Add phone number"]).
Proof.
  unfold UAnalyzer.generate_recommendations.
  rewrite ufold_append_map, ufold_append_if. cbn [app].
  destruct (UAnalyzer.truthy (UAnalyzer.email (UAnalyzer.contact_info a))),
           (UAnalyzer.truthy (UAnalyzer.phone (UAnalyzer.contact_info a)));
    cbn [negb]; unfold UAnalyzer.append; rewrite ?app_nil_r, <- ?app_assoc; reflexivity.
Qed.



(** ** Regular expressions over Unicode texts *)

Lemma ufindall_no_group (db : Unicode.database) (r : URe.regex) (t : Unicode.text) :
  URe.groups r = 0 -> URe.findall db r t = map URe.m_text (URe.finditer db r t).
Proof.
  intros H. unfold URe.findall. apply map_ext. intros m.
  unfold URe.findall_item. now rewrite H.
Qed.

Lemma ufindall_group (db : Unicode.database) (r : URe.regex) (t : Unicode.text) :
  URe.groups r <> 0 ->
  URe.findall db r t = map URe.group_or_empty (URe.finditer db r t).
Proof.
  intros H. unfold URe.findall. apply map_ext. intros m.
  unfold URe.findall_item. destruct (URe.groups r); [contradiction | reflexivity].
Qed.

Lemma ufinditer_from_head (db : Unicode.database) (r : URe.regex) (s : Unicode.text)
      (pos : nat) (prev : option N) :
  hd_error (URe.finditer_from db r 0 pos prev s) = URe.search_from db r pos prev s.
Proof.
  revert pos prev. induction s as [|c s IH]; intros pos prev; simpl.
  - destruct (URe.match_here db r prev []) as [[len g]|]; reflexivity.
  - destruct (URe.match_here db r prev (c :: s)) as [[len g]|]; [reflexivity|].
    apply IH.
Qed.

Lemma ufinditer_head (db : Unicode.database) (r : URe.regex) (t : Unicode.text) :
  hd_error (URe.finditer db r t) = URe.search db r t.
Proof. apply ufinditer_from_head. Qed.

Lemma ufirst_or_none_map {A : Type} (f : A -> Unicode.text) (l : list A) :
  UAnalyzer.first_or_none (map f l) = option_map f (hd_error l).
Proof. destruct l; reflexivity. Qed.

Lemma groups_uemail_pattern : URe.groups UAnalyzer.email_pattern = 0.
Proof. reflexivity. Qed.

Lemma groups_uphone_pattern : URe.groups UAnalyzer.phone_pattern = 1.
Proof. reflexivity. Qed.

(** The e-mail field is the text of the first match of the e-mail
    pattern, the phone field the text of the group of the first match
    of the phone pattern. *)
Lemma uemail_is_first_match (db : Unicode.database) (t : Unicode.text) :
  UAnalyzer.email (UAnalyzer.extract_contact_info db t)
  = option_map URe.m_text (URe.search db UAnalyzer.email_pattern t).
Proof.
  unfold UAnalyzer.extract_contact_info. cbn [UAnalyzer.email].
  rewrite (ufindall_no_group _ _ _ groups_uemail_pattern), ufirst_or_none_map.
  now rewrite ufinditer_head.
Qed.

Lemma uphone_is_first_group (db : Unicode.database) (t : Unicode.text) :
  UAnalyzer.phone (UAnalyzer.extract_contact_info db t)
  = option_map URe.group_or_empty (URe.search db UAnalyzer.phone_pattern t).
Proof.
  unfold UAnalyzer.extract_contact_info. cbn [UAnalyzer.phone].
  rewrite ufindall_group by (rewrite groups_uphone_pattern; discriminate).
  rewrite ufirst_or_none_map. now rewrite ufinditer_head.
Qed.



(** C10. For every text, whatever the Unicode database says of its
    characters, in which the phone pattern matches at least once and
    only bare numbers, the group of the country code taking no part in
    any match, and in which the e-mail pattern has no match: the phone
    field is the empty text, the text of the group that took no part;
    the field counts as absent: there is no e-mail either, the contact
    part of the score is 0, and the last recommendation is "Add phone
    number". *)
Theorem C10_bare_phone_is_dropped (db : Unicode.database) (impl : sum_impl)
        (t : Unicode.text) :
  URe.finditer db UAnalyzer.email_pattern t = [] ->
  UAnalyzer.bare_phone_only db t ->
  let a := UAnalyzer.analyze_resume_content db impl t in
  UAnalyzer.phone (UAnalyzer.contact_info a) = Some []
  /\ UAnalyzer.email (UAnalyzer.contact_info a) = None
  /\ UAnalyzer.contact_score (UAnalyzer.contact_info a) = PInt 0
  /\ exists before,
       UAnalyzer.generate_recommendations db a = before ++ [Unicode.lit "Add phone number"].
Proof.
  intros Hemail [Hne Hbare] a.
  assert (Hp : UAnalyzer.phone (UAnalyzer.contact_info a) = Some []).
  { change (UAnalyzer.phone (UAnalyzer.contact_info a))
      with (UAnalyzer.phone (UAnalyzer.extract_contact_info db t)).
    unfold UAnalyzer.extract_contact_info. cbn [UAnalyzer.phone].
    rewrite ufindall_group by (rewrite groups_uphone_pattern; discriminate).
    destruct (URe.finditer db UAnalyzer.phone_pattern t) as [|m ms]; [contradiction|].
    inversion Hbare as [|? ? Hm _]; subst.
    cbn [map UAnalyzer.first_or_none]. unfold URe.group_or_empty. now rewrite Hm. }
  assert (He : UAnalyzer.email (UAnalyzer.contact_info a) = None).
  { change (UAnalyzer.email (UAnalyzer.contact_info a))
      with (UAnalyzer.email (UAnalyzer.extract_contact_info db t)).
    unfold UAnalyzer.extract_contact_info. cbn [UAnalyzer.email].
    rewrite (ufindall_no_group _ _ _ groups_uemail_pattern), Hemail. reflexivity. }
  repeat split; try assumption.
  - unfold UAnalyzer.contact_score. rewrite Hp, He. reflexivity.
  - rewrite ugenerate_recommendations_blocks, Hp. cbn [UAnalyzer.truthy].
    rewrite !app_assoc. eexists. reflexivity.
Qed.

Lemma C10_bare_phone_is_dropped_witness :
  let a := UAnalyzer.analyze_resume_content Unicode.nbsp_db LeftToRight
             (Unicode.lit "555" ++ [Unicode.nbsp] ++ Unicode.lit "123" ++ [Unicode.nbsp]
              ++ Unicode.lit "4567") in
  UAnalyzer.phone (UAnalyzer.contact_info a) = Some []
  /\ UAnalyzer.email (UAnalyzer.contact_info a) = None
  /\ UAnalyzer.contact_score (UAnalyzer.contact_info a) = PInt 0
  /\ exists before,
       UAnalyzer.generate_recommendations Unicode.nbsp_db a
       = before ++ [Unicode.lit "Add phone number"].
Proof.
  apply C10_bare_phone_is_dropped.
  - vm_compute. reflexivity.
  - split.
    + vm_compute. discriminate.
    + vm_compute. repeat constructor.
Defined.

(** ** Substrings of Unicode texts *)

Lemma uprefix_nil (s : Unicode.text) : Unicode.prefix [] s = true.
Proof. destruct s; reflexivity. Qed.

Lemma uprefix_app (p s t : Unicode.text) :
  Unicode.prefix p s = true -> Unicode.prefix p (s ++ t) = true.
Proof.
  revert p. induction s as [|b s IH]; intros p H.
  - destruct p; [apply uprefix_nil | discriminate].
  - destruct p as [|a p]; [reflexivity|].
    cbn [app Unicode.prefix] in *.
    apply andb_true_iff in H. destruct H as [-> H]. now apply IH.
Qed.

Lemma ucontains_cons (w : Unicode.text) (c : N) (s : Unicode.text) :
  Unicode.contains w (c :: s) = Unicode.prefix w (c :: s) || Unicode.contains w s.
Proof. reflexivity. Qed.

Lemma ucontains_nil (w : Unicode.text) : Unicode.contains w [] = Unicode.prefix w [].
Proof. simpl. apply orb_false_r. Qed.

Lemma ucontains_app_l (w s t : Unicode.text) :
  Unicode.contains w s = true -> Unicode.contains w (s ++ t) = true.
Proof.
  induction s as [|c s IH]; intros H.
  - rewrite ucontains_nil in H. destruct w; [|discriminate]. destruct t; reflexivity.
  - cbn [app]. rewrite ucontains_cons in *.
    apply orb_true_iff in H. apply orb_true_iff. destruct H as [H | H].
    + left. apply (uprefix_app w (c :: s) t H).
    + right. now apply IH.
Qed.

Lemma ucontains_app_r (w s t : Unicode.text) :
  Unicode.contains w t = true -> Unicode.contains w (s ++ t) = true.
Proof.
  intros H. induction s as [|c s IH]; [exact H|].
  cbn [app]. rewrite ucontains_cons, IH. apply orb_true_r.
Qed.

(** ** Patterns that are lists of words, over Unicode texts *)

Lemma umatch_lit_prefix (l : Unicode.text) (prev : option N) (s : Unicode.text) :
  UAnalyzer.is_some (URe.match_lit l prev s) = Unicode.prefix l s.
Proof.
  revert prev s. induction l as [|a l IH]; intros prev s.
  - reflexivity.
  - destruct s as [|c s]; [reflexivity|].
    cbn [URe.match_lit Unicode.prefix].
    destruct (N.eqb a c); [apply IH | reflexivity].
Qed.

Lemma uexistsb_orb {A : Type} (f g : A -> bool) (l : list A) :
  existsb (fun x => f x || g x) l = existsb f l || existsb g l.
Proof.
  induction l as [|x l IH]; simpl; [reflexivity|].
  rewrite IH. destruct (f x), (g x), (existsb f l), (existsb g l); reflexivity.
Qed.

Lemma uexistsb_same {A : Type} (f g : A -> bool) (l : list A) :
  (forall x, f x = g x) -> existsb f l = existsb g l.
Proof.
  intros H. induction l as [|x l IH]; simpl; [reflexivity|]. now rewrite H, IH.
Qed.

Lemma urmatch_words {R : Type} (db : Unicode.database) (r : URe.regex) :
  UMeasure.literal_only r = true ->
  forall (prev : option N) (s : Unicode.text) (g : option Unicode.text)
         (k : option N -> Unicode.text -> option Unicode.text -> option R),
    (forall p s' g', UAnalyzer.is_some (k p s' g') = true) ->
    UAnalyzer.is_some (URe.rmatch db r prev s g k)
    = existsb (fun w => Unicode.prefix w s) (UMeasure.words r).
Proof.
  induction r as [l|cs| |a IHa b IHb|a IHa b IHb|a IHa|cs lo hi|a IHa];
    try discriminate; cbn [UMeasure.literal_only]; intros Hlit prev s g k Hk.
  - cbn [URe.rmatch UMeasure.words existsb].
    rewrite orb_false_r, <- (umatch_lit_prefix l prev s).
    destruct (URe.match_lit l prev s) as [[p s']|]; [apply Hk | reflexivity].
  - apply andb_true_iff in Hlit. destruct Hlit as [Ha Hb].
    cbn [URe.rmatch UMeasure.words]. rewrite existsb_app.
    rewrite <- (IHa Ha prev s g k Hk), <- (IHb Hb prev s g k Hk).
    destruct (URe.rmatch db a prev s g k); reflexivity.
  - cbn [URe.rmatch UMeasure.words]. apply (IHa Hlit). intros p s' g'. apply Hk.
Qed.

(** [re.search] with a pattern of words finds a match exactly in the
    texts that contain one of the words, whatever the database. *)
Lemma usearch_words (db : Unicode.database) (r : URe.regex) (t : Unicode.text) :
  UMeasure.literal_only r = true ->
  UAnalyzer.is_some (URe.search db r t)
  = existsb (fun w => Unicode.contains w t) (UMeasure.words r).
Proof.
  intros Hlit. unfold URe.search. generalize 0 (@None N).
  induction t as [|c s IH]; intros pos prev.
  - cbn [URe.search_from]. unfold URe.match_here.
    pose proof (urmatch_words db r Hlit prev [] None
      (fun _ s' g => Some (List.length (@nil N) - List.length s', g))
      (fun _ _ _ => eq_refl)) as H.
    destruct (URe.rmatch db r prev [] None _) as [[len g]|]; cbn [UAnalyzer.is_some] in *;
      rewrite H; apply uexistsb_same; intros w; now rewrite ucontains_nil.
  - cbn [URe.search_from]. unfold URe.match_here.
    pose proof (urmatch_words db r Hlit prev (c :: s) None
      (fun _ s' g => Some (List.length (c :: s) - List.length s', g))
      (fun _ _ _ => eq_refl)) as H.
    transitivity (existsb (fun w => Unicode.prefix w (c :: s) || Unicode.contains w s)
                          (UMeasure.words r));
      [|apply uexistsb_same; intros w; now rewrite ucontains_cons].
    rewrite uexistsb_orb, <- (IH (S pos) (Some c)), <- H.
    destruct (URe.rmatch db r prev (c :: s) None _) as [[len g]|]; reflexivity.
Qed.

Lemma udetect_by_words (db : Unicode.database) (text_lower : Unicode.text)
      (patterns : list (Unicode.text * URe.regex)) :
  Forall (fun sp => UMeasure.literal_only (snd sp) = true) patterns ->
  map fst (filter (fun sp => UAnalyzer.is_some (URe.search db (snd sp) text_lower)) patterns)
  = map fst (filter (fun tw => existsb (fun w => Unicode.contains w text_lower) (snd tw))
                    (map (fun sp => (fst sp, UMeasure.words (snd sp))) patterns)).
Proof.
  induction 1 as [|sp l Hsp _ IH]; [reflexivity|].
  cbn [map filter fst snd]. rewrite (usearch_words _ _ _ Hsp).
  destruct (existsb (fun w => Unicode.contains w text_lower) (UMeasure.words (snd sp)));
    cbn [map fst]; now rewrite IH.
Qed.

Lemma usection_patterns_literal :
  Forall (fun sp => UMeasure.literal_only (snd sp) = true) UAnalyzer.section_patterns.
Proof. repeat constructor. Qed.

(** X7. Section detection is a search for words: whatever the Unicode
    database says of the characters of the text, a section tag is
    detected exactly when the text that [str.lower] returns contains one
    of the words of the tag as a substring, and the detected tags come
    in the order of the table. *)
Theorem X7_sections_by_words (db : Unicode.database) (t : Unicode.text) :
  UAnalyzer.detect_sections db t
  = map fst
      (filter (fun tw => existsb (fun w => Unicode.contains w (Unicode.lower db t)) (snd tw))
         [ (Unicode.lit "contact_info",
            map Unicode.lit ["contact"; "phone"; "email"; "address"]);
           (Unicode.lit "experience",
            map Unicode.lit ["experience"; "work history"; "employment"]);
           (Unicode.lit "education", map Unicode.lit ["education"; "academic"]);
           (Unicode.lit "skills", map Unicode.lit ["skills"; "technical skills"]);
           (Unicode.lit "projects", map Unicode.lit ["projects"; "portfolio"]) ]).
Proof.
  unfold UAnalyzer.detect_sections.
  rewrite (udetect_by_words db (Unicode.lower db t) UAnalyzer.section_patterns
             usection_patterns_literal).
  reflexivity.
Qed.

(** ** The length of matches, over Unicode texts *)

Lemma uprefix_firstn (n : nat) (s : Unicode.text) : Unicode.prefix (firstn n s) s = true.
Proof.
  revert n. induction s as [|c s IH]; intros n.
  - destruct n; reflexivity.
  - destruct n as [|n]; [reflexivity|].
    cbn [firstn Unicode.prefix]. rewrite N.eqb_refl. apply IH.
Qed.

Lemma umatch_lit_length (l : Unicode.text) (prev p : option N) (s s' : Unicode.text) :
  URe.match_lit l prev s = Some (p, s') ->
  List.length s = List.length l + List.length s'.
Proof.
  revert prev s. induction l as [|a l IH]; intros prev s H.
  - simpl in H. injection H as _ ->. reflexivity.
  - destruct s as [|c s]; [discriminate|].
    cbn [URe.match_lit] in H. destruct (N.eqb a c); [|discriminate].
    apply IH in H. cbn [List.length]. lia.
Qed.

Lemma umatch_rep_sound {R : Type} (db : Unicode.database) (cs : URe.cset) (lo : nat)
      (hi : option nat) (k : option N -> Unicode.text -> option R) (x : R)
      (s : Unicode.text) :
  forall (n : nat) (prev : option N),
    URe.match_rep db cs lo hi n prev s k = Some x ->
    exists p' s',
      k p' s' = Some x
      /\ List.length s' <= List.length s
      /\ lo <= n + (List.length s - List.length s')
      /\ (forall h, hi = Some h -> n <= h -> n + (List.length s - List.length s') <= h).
Proof.
  induction s as [|c s IH]; intros n prev H.
  - cbn [URe.match_rep] in H. destruct (lo <=? n)%nat eqn:Hlo; [|discriminate].
    apply Nat.leb_le in Hlo. exists prev, (@nil N). cbn [List.length].
    repeat split; try lia. exact H.
  - cbn [URe.match_rep] in H.
    assert (Hstop : (if (lo <=? n)%nat then k prev (c :: s) else None) = Some x ->
                    exists p' s',
                      k p' s' = Some x
                      /\ List.length s' <= List.length (c :: s)
                      /\ lo <= n + (List.length (c :: s) - List.length s')
                      /\ (forall h, hi = Some h -> n <= h ->
                            n + (List.length (c :: s) - List.length s') <= h)).
    { intros Hs. destruct (lo <=? n)%nat eqn:Hlo; [|discriminate].
      apply Nat.leb_le in Hlo. exists prev, (c :: s).
      repeat split; try lia. exact Hs. }
    destruct (match hi with Some h => (n <? h)%nat | None => true end
              && URe.cset_mem db cs c) eqn:Htake;
      [|now apply Hstop].
    destruct (URe.match_rep db cs lo hi (S n) (Some c) s k) as [r|] eqn:Hrec;
      [|now apply Hstop].
    injection H as ->.
    destruct (IH _ _ Hrec) as (p' & s' & Hk & Hlen & Hlo & Hhi).
    exists p', s'. cbn [List.length]. repeat split; try lia; [exact Hk|].
    intros h Hh Hn. apply andb_true_iff in Htake. destruct Htake as [Hlt _].
    rewrite Hh in Hlt. apply Nat.ltb_lt in Hlt.
    specialize (Hhi h Hh). lia.
Qed.

(** A successful match hands to the rest of the pattern a text that is
    shorter by a number of code points between the least and the
    greatest length of the pattern, and a group whose text has the
    length of the groups of the pattern. *)
Lemma urmatch_sound {R : Type} (db : Unicode.database) (lo hi : nat) (r : URe.regex) :
  UMeasure.groups_within lo hi r = true ->
  forall (prev : option N) (s : Unicode.text) (g : option Unicode.text)
         (k : option N -> Unicode.text -> option Unicode.text -> option R) (x : R),
    URe.rmatch db r prev s g k = Some x ->
    exists p' s' g',
      k p' s' g' = Some x
      /\ List.length s' + UMeasure.min_len r <= List.length s
      /\ (forall m, UMeasure.max_len r = Some m -> List.length s <= List.length s' + m)
      /\ (UMeasure.group_within lo hi g -> UMeasure.group_within lo hi g').
Proof.
  induction r as [l|cs| |a IHa b IHb|a IHa b IHb|a IHa|cs rlo rhi|a IHa];
    cbn [UMeasure.groups_within]; intros Hg prev s g k x H; cbn [URe.rmatch] in H.
  - destruct (URe.match_lit l prev s) as [[p s']|] eqn:Hl; [|discriminate].
    apply umatch_lit_length in Hl. exists p, s', g. cbn [UMeasure.min_len UMeasure.max_len].
    repeat split; try lia; [exact H | | tauto].
    intros m Hm. injection Hm as <-. lia.
  - destruct s as [|c s]; [discriminate|].
    destruct (URe.cset_mem db cs c); [|discriminate].
    exists (Some c), s, g. cbn [UMeasure.min_len UMeasure.max_len List.length].
    repeat split; try lia; [exact H | | tauto].
    intros m Hm. injection Hm as <-. lia.
  - destruct (xorb _ _); [|discriminate].
    exists prev, s, g. cbn [UMeasure.min_len UMeasure.max_len].
    repeat split; try lia; [exact H | tauto].
  - apply andb_true_iff in Hg. destruct Hg as [Ha Hb].
    destruct (IHa Ha _ _ _ _ _ H) as (p1 & s1 & g1 & H1 & Hmin1 & Hmax1 & Hg1).
    destruct (IHb Hb _ _ _ _ _ H1) as (p2 & s2 & g2 & H2 & Hmin2 & Hmax2 & Hg2).
    exists p2, s2, g2. cbn [UMeasure.min_len UMeasure.max_len].
    repeat split; try lia; [exact H2 | | tauto].
    intros m Hm.
    destruct (UMeasure.max_len a) as [ma|]; [|discriminate].
    destruct (UMeasure.max_len b) as [mb|]; [|discriminate].
    injection Hm as <-. specialize (Hmax1 _ eq_refl). specialize (Hmax2 _ eq_refl). lia.
  - apply andb_true_iff in Hg. destruct Hg as [Ha Hb].
    assert (Hcase : URe.rmatch db a prev s g k = Some x \/ URe.rmatch db b prev s g k = Some x).
    { destruct (URe.rmatch db a prev s g k); [left; exact H | right; exact H]. }
    destruct Hcase as [H1 | H1];
      [destruct (IHa Ha _ _ _ _ _ H1) as (p' & s' & g' & Hk & Hmin & Hmax & Hgw)
      |destruct (IHb Hb _ _ _ _ _ H1) as (p' & s' & g' & Hk & Hmin & Hmax & Hgw)];
      exists p', s', g'; cbn [UMeasure.min_len UMeasure.max_len];
      (repeat split; try lia; [exact Hk | | tauto]);
      intros m Hm;
      (destruct (UMeasure.max_len a) as [ma|]; [|discriminate]);
      (destruct (UMeasure.max_len b) as [mb|]; [|discriminate]);
      injection Hm as <-; specialize (Hmax _ eq_refl); lia.
  - assert (Hcase : URe.rmatch db a prev s g k = Some x \/ k prev s g = Some x).
    { destruct (URe.rmatch db a prev s g k); [left; exact H | right; exact H]. }
    destruct Hcase as [H1 | H1].
    + destruct (IHa Hg _ _ _ _ _ H1) as (p' & s' & g' & Hk & Hmin & Hmax & Hgw).
      exists p', s', g'. cbn [UMeasure.min_len UMeasure.max_len].
      repeat split; try lia; [exact Hk | exact Hmax | tauto].
    + exists prev, s, g. cbn [UMeasure.min_len UMeasure.max_len].
      repeat split; try lia; [exact H1 | tauto].
  - destruct (umatch_rep_sound _ _ _ _ _ _ _ _ _ H) as (p' & s' & Hk & Hlen & Hlo & Hhi).
    exists p', s', g. cbn [UMeasure.min_len UMeasure.max_len].
    repeat split; try lia; [exact Hk | | tauto].
    intros m Hm. specialize (Hhi m Hm). lia.
  - rewrite !andb_true_iff in Hg. destruct Hg as [[Hlo Hhi] Ha].
    apply Nat.leb_le in Hlo.
    destruct (UMeasure.max_len a) as [ma|] eqn:Hma; [|discriminate]. apply Nat.leb_le in Hhi.
    destruct (IHa Ha _ _ _ _ _ H) as (p' & s' & g' & Hk & Hmin & Hmax & _).
    specialize (Hmax _ eq_refl).
    exists p', s', (Some (firstn (List.length s - List.length s') s)).
    cbn [UMeasure.min_len UMeasure.max_len]. rewrite Hma.
    split; [exact Hk|]. split; [lia|]. split.
    + intros m Hm. injection Hm as <-. lia.
    + intros _. cbn [UMeasure.group_within]. rewrite length_firstn. lia.
Qed.

Lemma umatch_here_sound (db : Unicode.database) (lo hi : nat) (r : URe.regex)
      (prev : option N) (s : Unicode.text) (len : nat) (g : option Unicode.text) :
  UMeasure.groups_within lo hi r = true ->
  URe.match_here db r prev s = Some (len, g) ->
  UMeasure.min_len r <= len <= List.length s
  /\ (forall m, UMeasure.max_len r = Some m -> len <= m)
  /\ UMeasure.group_within lo hi g.
Proof.
  intros Hg H. unfold URe.match_here in H.
  destruct (urmatch_sound db lo hi r Hg _ _ _ _ _ H) as (p' & s' & g' & Hk & Hmin & Hmax & Hgw).
  injection Hk as <- <-.
  repeat split; try lia.
  - intros m Hm. specialize (Hmax m Hm). lia.
  - apply Hgw. exact I.
Qed.

(** The first match of a pattern in a text: its text is a part of the
    text, with a length between the least and the greatest length of
    the pattern. *)
Lemma usearch_from_sound (db : Unicode.database) (lo hi : nat) (r : URe.regex)
      (m : URe.match_obj) (s : Unicode.text) :
  UMeasure.groups_within lo hi r = true ->
  forall (pos : nat) (prev : option N),
    URe.search_from db r pos prev s = Some m ->
    UMeasure.min_len r <= List.length (URe.m_text m)
    /\ (forall n, UMeasure.max_len r = Some n -> List.length (URe.m_text m) <= n)
    /\ UMeasure.group_within lo hi (URe.m_group m)
    /\ Unicode.contains (URe.m_text m) s = true.
Proof.
  intros Hg.
  assert (Hhere : forall prev s len g,
            URe.match_here db r prev s = Some (len, g) ->
            UMeasure.min_len r <= List.length (firstn len s)
            /\ (forall n, UMeasure.max_len r = Some n -> List.length (firstn len s) <= n)
            /\ UMeasure.group_within lo hi g
            /\ Unicode.prefix (firstn len s) s = true).
  { intros prev s0 len g H.
    destruct (umatch_here_sound db lo hi r prev s0 len g Hg H) as (Hlen & Hmax & Hgw).
    rewrite length_firstn, Nat.min_l by lia.
    repeat split; try lia; [exact Hmax | exact Hgw | apply uprefix_firstn]. }
  induction s as [|c s IH]; intros pos prev H; cbn [URe.search_from] in H.
  - destruct (URe.match_here db r prev []) as [[len g]|] eqn:Hm; [|discriminate].
    injection H as <-.
    destruct (Hhere _ _ _ _ Hm) as (H1 & H2 & H3 & H4).
    split; [exact H1|]. split; [exact H2|]. split; [exact H3|].
    cbn [URe.m_text]. rewrite ucontains_nil. exact H4.
  - destruct (URe.match_here db r prev (c :: s)) as [[len g]|] eqn:Hm.
    + injection H as <-.
      destruct (Hhere _ _ _ _ Hm) as (H1 & H2 & H3 & H4).
      split; [exact H1|]. split; [exact H2|]. split; [exact H3|].
      cbn [URe.m_text]. rewrite ucontains_cons, H4. reflexivity.
    + destruct (IH _ _ H) as (H1 & H2 & H3 & H4).
      split; [exact H1|]. split; [exact H2|]. split; [exact H3|].
      rewrite ucontains_cons, H4. apply orb_true_r.
Qed.

(** ** The contact fields, over Unicode texts *)

Lemma uemail_pattern_measure :
  UMeasure.groups_within 0 0 UAnalyzer.email_pattern = true
  /\ UMeasure.min_len UAnalyzer.email_pattern = 6.
Proof. split; reflexivity. Qed.

Lemma uphone_pattern_measure :
  UMeasure.groups_within 1 5 UAnalyzer.phone_pattern = true
  /\ UMeasure.min_len UAnalyzer.phone_pattern = 10
  /\ UMeasure.max_len UAnalyzer.phone_pattern = Some 19.
Proof. repeat split; reflexivity. Qed.

Lemma utruthy_nonempty (s : Unicode.text) :
  1 <= List.length s -> UAnalyzer.truthy (Some s) = true.
Proof. destruct s; simpl; [lia | reflexivity]. Qed.

Lemma ufound_email_is_present (db : Unicode.database) (t e : Unicode.text) :
  UAnalyzer.email (UAnalyzer.extract_contact_info db t) = Some e ->
  UAnalyzer.truthy (Some e) = true
  /\ UAnalyzer.is_some (URe.search db UAnalyzer.email_pattern t) = true.
Proof.
  rewrite uemail_is_first_match. intros H.
  destruct (URe.search db UAnalyzer.email_pattern t) as [m|] eqn:Hm; [|discriminate].
  injection H as <-.
  destruct uemail_pattern_measure as [Hg Hmin].
  destruct (usearch_from_sound db 0 0 UAnalyzer.email_pattern m t Hg 0 None Hm) as (H1 & _).
  rewrite Hmin in H1. split; [apply utruthy_nonempty; lia | reflexivity].
Qed.

(** X12. Whatever the Unicode database says of the characters of the
    text, a phone field that the analyzer fills never holds the phone
    number: it has at most 5 code points, while the match of the phone
    pattern that it comes from has between 10 and 19 code points and is
    a part of the text. *)
Theorem X12_phone_field (db : Unicode.database) (t p : Unicode.text) :
  UAnalyzer.phone (UAnalyzer.extract_contact_info db t) = Some p ->
  List.length p <= 5
  /\ exists m, URe.search db UAnalyzer.phone_pattern t = Some m
               /\ 10 <= List.length (URe.m_text m) <= 19
               /\ Unicode.contains (URe.m_text m) t = true
               /\ p <> URe.m_text m.
Proof.
  rewrite uphone_is_first_group. intros H.
  destruct (URe.search db UAnalyzer.phone_pattern t) as [m|] eqn:Hm; [|discriminate].
  injection H as <-.
  destruct uphone_pattern_measure as (Hg & Hmin & Hmax).
  destruct (usearch_from_sound db 1 5 UAnalyzer.phone_pattern m t Hg 0 None Hm)
    as (H1 & H2 & H3 & H4).
  rewrite Hmin in H1. specialize (H2 _ Hmax).
  assert (Hp : List.length (URe.group_or_empty m) <= 5).
  { unfold URe.group_or_empty. destruct (URe.m_group m) as [g|];
      cbn [UMeasure.group_within] in H3.
    - lia.
    - simpl. lia. }
  split; [exact Hp|]. exists m.
  split; [reflexivity|]. split; [lia|]. split; [exact H4|].
  intros Heq. rewrite Heq in Hp. lia.
Qed.

Lemma X12_phone_field_witness :
  List.length (Unicode.lit "+1" ++ [Unicode.nbsp]) <= 5
  /\ exists m, URe.search Unicode.nbsp_db UAnalyzer.phone_pattern
                 (Unicode.lit "+1" ++ [Unicode.nbsp] ++ Unicode.lit "555-123-4567") = Some m
               /\ 10 <= List.length (URe.m_text m) <= 19
               /\ Unicode.contains (URe.m_text m)
                    (Unicode.lit "+1" ++ [Unicode.nbsp] ++ Unicode.lit "555-123-4567") = true
               /\ Unicode.lit "+1" ++ [Unicode.nbsp] <> URe.m_text m.
Proof.
  apply (X12_phone_field Unicode.nbsp_db
           (Unicode.lit "+1" ++ [Unicode.nbsp] ++ Unicode.lit "555-123-4567")
           (Unicode.lit "+1" ++ [Unicode.nbsp])).
  vm_compute. reflexivity.
Defined.

(** X13. Whatever the Unicode database says of the characters of the
    text, the 10 points of the contact are given exactly when the
    e-mail pattern has a match in the text or the first match of the
    phone pattern has the prefix of a country code; a text whose first
    phone number has no such prefix gets no point for it. *)
Theorem X13_contact_points (db : Unicode.database) (t : Unicode.text) :
  UAnalyzer.contact_score (UAnalyzer.extract_contact_info db t)
  = if UAnalyzer.is_some (URe.search db UAnalyzer.email_pattern t)
       || match URe.search db UAnalyzer.phone_pattern t with
          | Some m => UAnalyzer.is_some (URe.m_group m)
          | None => false
          end
    then PInt 10 else PInt 0.
Proof.
  unfold UAnalyzer.contact_score. cbn [existsb]. rewrite orb_false_r.
  assert (He : UAnalyzer.truthy (UAnalyzer.email (UAnalyzer.extract_contact_info db t))
               = UAnalyzer.is_some (URe.search db UAnalyzer.email_pattern t)).
  { destruct (UAnalyzer.email (UAnalyzer.extract_contact_info db t)) as [e|] eqn:H.
    - destruct (ufound_email_is_present db t e H) as [Ht Hs]. now rewrite Ht, Hs.
    - rewrite uemail_is_first_match in H.
      destruct (URe.search db UAnalyzer.email_pattern t); [discriminate | reflexivity]. }
  assert (Hp : UAnalyzer.truthy (UAnalyzer.phone (UAnalyzer.extract_contact_info db t))
               = match URe.search db UAnalyzer.phone_pattern t with
                 | Some m => UAnalyzer.is_some (URe.m_group m)
                 | None => false
                 end).
  { rewrite uphone_is_first_group.
    destruct (URe.search db UAnalyzer.phone_pattern t) as [m|] eqn:Hm; [|reflexivity].
    destruct uphone_pattern_measure as (Hg & _ & _).
    destruct (usearch_from_sound db 1 5 UAnalyzer.phone_pattern m t Hg 0 None Hm)
      as (_ & _ & H3 & _).
    cbn [option_map]. unfold URe.group_or_empty.
    destruct (URe.m_group m) as [g|]; cbn [UMeasure.group_within UAnalyzer.is_some] in *.
    - apply utruthy_nonempty. lia.
    - reflexivity. }
  now rewrite He, Hp.
Qed.

(** ** Stripping and counting words, over Unicode texts *)

Lemma ulstrip_head (db : Unicode.database) (s : Unicode.text) (c : N) (t : Unicode.text) :
  Unicode.lstrip db s = c :: t -> Unicode.isspace db c = false.
Proof.
  induction s as [|d s IH]; [discriminate|].
  cbn [Unicode.lstrip]. destruct (Unicode.isspace db d) eqn:Hd; [exact IH|].
  intros H. injection H as <- _. exact Hd.
Qed.

Lemma ulstrip_fixed (db : Unicode.database) (c : N) (t : Unicode.text) :
  Unicode.isspace db c = false -> Unicode.lstrip db (c :: t) = c :: t.
Proof. intros H. cbn [Unicode.lstrip]. now rewrite H. Qed.

(** What [lstrip] takes away is white space. *)
Lemma ulstrip_split (db : Unicode.database) (s : Unicode.text) :
  exists l, s = l ++ Unicode.lstrip db s /\ forallb (Unicode.isspace db) l = true.
Proof.
  induction s as [|c s (l & Hs & Hl)].
  - now exists [].
  - cbn [Unicode.lstrip]. destruct (Unicode.isspace db c) eqn:Hc.
    + exists (c :: l). cbn [app forallb]. rewrite Hc, Hl. split; [now f_equal | reflexivity].
    + now exists [].
Qed.

(** What [rstrip] takes away is white space. *)
Lemma urstrip_split (db : Unicode.database) (s : Unicode.text) :
  exists r, s = Unicode.rstrip db s ++ r /\ forallb (Unicode.isspace db) r = true.
Proof.
  induction s as [|c s (r & Hs & Hr)].
  - now exists [].
  - cbn [Unicode.rstrip]. destruct (Unicode.rstrip db s) as [|d q] eqn:Hq.
    + destruct (Unicode.isspace db c) eqn:Hc.
      * exists (c :: s). split; [reflexivity|]. cbn [forallb]. rewrite Hc.
        cbn [app] in Hs. now rewrite Hs.
      * exists r. split; [|exact Hr]. cbn [app] in *. now f_equal.
    + exists r. split; [|exact Hr]. rewrite Hs at 1. reflexivity.
Qed.

(** The last code point that [rstrip] leaves is not white space. *)
Lemma urstrip_last (db : Unicode.database) (s q : Unicode.text) (c : N) :
  Unicode.rstrip db s = q ++ [c] -> Unicode.isspace db c = false.
Proof.
  revert q. induction s as [|d s IH]; intros q H.
  - destruct q; discriminate.
  - cbn [Unicode.rstrip] in H. destruct (Unicode.rstrip db s) as [|e r] eqn:Hr.
    + destruct (Unicode.isspace db d) eqn:Hd.
      * destruct q; discriminate.
      * destruct q as [|x [|y q]]; try discriminate. injection H as <-. exact Hd.
    + destruct q as [|x q]; [discriminate|].
      injection H as _ H. exact (IH q H).
Qed.

Lemma ucount_words_lstrip (db : Unicode.database) (s : Unicode.text) :
  Unicode.count_words db (Unicode.lstrip db s) = Unicode.count_words db s.
Proof.
  unfold Unicode.count_words. induction s as [|c s IH]; [reflexivity|].
  cbn [Unicode.lstrip]. destruct (Unicode.isspace db c) eqn:Hc; [|reflexivity].
  rewrite IH. cbn [Unicode.count_words_from]. now rewrite Hc.
Qed.

Lemma ucount_words_from_rstrip (db : Unicode.database) (s : Unicode.text) (b : bool) :
  Unicode.count_words_from db b (Unicode.rstrip db s) = Unicode.count_words_from db b s.
Proof.
  revert b. induction s as [|c s IH]; intros b; [reflexivity|].
  cbn [Unicode.rstrip]. destruct (Unicode.rstrip db s) as [|d r] eqn:Hr.
  - assert (Hz : forall b', Unicode.count_words_from db b' s = 0)
      by (intros b'; now rewrite <- IH).
    cbn [Unicode.count_words_from]. destruct (Unicode.isspace db c) eqn:Hc.
    + now rewrite Hz.
    + cbn [Unicode.count_words_from]. rewrite Hc, Hz. destruct b; reflexivity.
  - rewrite <- Hr in IH |- *. cbn [Unicode.count_words_from]. rewrite !IH. reflexivity.
Qed.

Lemma ucount_words_zero_iff (db : Unicode.database) (s : Unicode.text) :
  Unicode.count_words db s = 0 <-> Unicode.lstrip db s = [].
Proof.
  unfold Unicode.count_words. induction s as [|c s IH]; [tauto|].
  cbn [Unicode.count_words_from Unicode.lstrip]. destruct (Unicode.isspace db c); [exact IH|].
  split; discriminate.
Qed.

(** A text strips to the empty text exactly when it has no word. *)
Lemma ustrip_empty_iff (db : Unicode.database) (s : Unicode.text) :
  Unicode.strip db s = [] <-> Unicode.count_words db s = 0.
Proof.
  unfold Unicode.strip. split; intros H.
  - rewrite <- ucount_words_lstrip. unfold Unicode.count_words.
    rewrite <- ucount_words_from_rstrip, H. reflexivity.
  - apply ucount_words_zero_iff in H. now rewrite H.
Qed.

Lemma ucount_words_strip (db : Unicode.database) (s : Unicode.text) :
  Unicode.count_words db (Unicode.strip db s) = Unicode.count_words db s.
Proof.
  unfold Unicode.strip, Unicode.count_words. rewrite ucount_words_from_rstrip.
  apply ucount_words_lstrip.
Qed.

(** A text of white space has no word, and the other way round. *)
Lemma ucount_words_blank (db : Unicode.database) (s : Unicode.text) :
  Unicode.count_words db s = 0 <-> forallb (Unicode.isspace db) s = true.
Proof.
  unfold Unicode.count_words. induction s as [|c s IH]; [tauto|].
  cbn [Unicode.count_words_from forallb]. destruct (Unicode.isspace db c); [exact IH|].
  split; discriminate.
Qed.

Lemma urstrip_idempotent (db : Unicode.database) (s : Unicode.text) :
  Unicode.rstrip db (Unicode.rstrip db s) = Unicode.rstrip db s.
Proof.
  induction s as [|c s IH]; [reflexivity|].
  cbn [Unicode.rstrip]. destruct (Unicode.rstrip db s) as [|d r] eqn:Hr.
  - destruct (Unicode.isspace db c) eqn:Hc; [reflexivity|].
    cbn [Unicode.rstrip]. now rewrite Hc.
  - rewrite <- Hr in IH |- *. cbn [Unicode.rstrip]. rewrite IH, Hr. reflexivity.
Qed.

Lemma urstrip_keeps_head (db : Unicode.database) (c : N) (t : Unicode.text) :
  Unicode.isspace db c = false -> exists r, Unicode.rstrip db (c :: t) = c :: r.
Proof.
  intros Hc. cbn [Unicode.rstrip]. destruct (Unicode.rstrip db t) as [|d r].
  - rewrite Hc. now exists [].
  - now exists (d :: r).
Qed.

Lemma ulstrip_strip (db : Unicode.database) (s : Unicode.text) :
  Unicode.lstrip db (Unicode.strip db s) = Unicode.strip db s.
Proof.
  unfold Unicode.strip. destruct (Unicode.lstrip db s) as [|c t] eqn:Hl; [reflexivity|].
  pose proof (ulstrip_head _ _ _ _ Hl) as Hc.
  destruct (urstrip_keeps_head db c t Hc) as [r ->]. now apply ulstrip_fixed.
Qed.

Lemma ustrip_idempotent (db : Unicode.database) (s : Unicode.text) :
  Unicode.strip db (Unicode.strip db s) = Unicode.strip db s.
Proof.
  unfold Unicode.strip at 1. rewrite ulstrip_strip. apply urstrip_idempotent.
Qed.

(** The first code point that [strip] leaves is not white space. *)
Lemma ustrip_first (db : Unicode.database) (s q : Unicode.text) (c : N) :
  Unicode.strip db s = c :: q -> Unicode.isspace db c = false.
Proof.
  intros H. pose proof (ulstrip_strip db s) as Hl. rewrite H in Hl.
  cbn [Unicode.lstrip] in Hl. destruct (Unicode.isspace db c) eqn:Hc; [|reflexivity].
  exfalso.
  destruct (ulstrip_split db q) as (l & Hq & _).
  assert (Hlen : List.length (Unicode.lstrip db q) = S (List.length q)) by now rewrite Hl.
  apply (f_equal (@List.length N)) in Hq. rewrite length_app in Hq. lia.
Qed.

(** ** Words across lines, over Unicode texts *)

Lemma uconcat_lines_cons (part : Unicode.text) (parts : list Unicode.text) :
  UExtractor.concat_lines (part :: parts)
  = part ++ UExtractor.newline ++ UExtractor.concat_lines parts.
Proof.
  unfold UExtractor.concat_lines. cbn [fold_left app].
  assert (H : forall acc,
            fold_left (fun text p => text ++ (p ++ UExtractor.newline)) parts acc
            = acc ++ fold_left (fun text p => text ++ (p ++ UExtractor.newline)) parts []).
  { induction parts as [|p l IH]; intros acc; cbn [fold_left].
    - now rewrite app_nil_r.
    - rewrite (IH (acc ++ (p ++ UExtractor.newline))), (IH ([] ++ (p ++ UExtractor.newline))).
      cbn [app]. now rewrite <- app_assoc. }
  rewrite H. now rewrite <- app_assoc.
Qed.

(** A line feed ends a word: the words of two parts with a line feed
    between them are the words of the one and the words of the other. *)
Lemma ucount_words_from_line (db : Unicode.database) (s t : Unicode.text) (b : bool) :
  Unicode.isspace db 10%N = true ->
  Unicode.count_words_from db b (s ++ UExtractor.newline ++ t)
  = Unicode.count_words_from db b s + Unicode.count_words db t.
Proof.
  intros Hnl. revert b. induction s as [|c s IH]; intros b.
  - cbn [app UExtractor.newline Unicode.count_words_from]. now rewrite Hnl.
  - cbn [app Unicode.count_words_from].
    destruct (Unicode.isspace db c); [apply IH|].
    destruct b; rewrite IH; reflexivity.
Qed.

Lemma ucount_words_concat_lines (db : Unicode.database) (parts : list Unicode.text) :
  Unicode.isspace db 10%N = true ->
  Unicode.count_words db (UExtractor.concat_lines parts)
  = list_sum (map (Unicode.count_words db) parts).
Proof.
  intros Hnl. induction parts as [|p l IH]; [reflexivity|].
  change (Unicode.count_words db (UExtractor.concat_lines (p :: l))
          = Unicode.count_words db p + list_sum (map (Unicode.count_words db) l)).
  rewrite uconcat_lines_cons. unfold Unicode.count_words at 1.
  rewrite (ucount_words_from_line db _ _ _ Hnl), IH. reflexivity.
Qed.

(** ** Extraction and the page, over Unicode texts *)

Lemma ueqb_refl (t : Unicode.text) : Unicode.eqb t t = true.
Proof. induction t as [|c t IH]; [reflexivity|]. cbn [Unicode.eqb]. now rewrite N.eqb_refl. Qed.

(** What the readers return for a PDF or a DOCX file. *)
Lemma uread_document (f : UExtractor.uploaded_file) (parts : list Unicode.text) :
  (UExtractor.type f = Unicode.lit "application/pdf"
   /\ UExtractor.pdf_pages f = Some parts)
  \/ (UExtractor.type f
      = Unicode.lit "application/vnd.openxmlformats-officedocument.wordprocessingml.document"
      /\ UExtractor.docx_paragraphs f = Some parts) ->
  UExtractor.read_text f = Some (UExtractor.concat_lines parts).
Proof.
  unfold UExtractor.read_text. intros [[Ht Hp] | [Ht Hp]]; rewrite Ht, Hp.
  - rewrite ueqb_refl. reflexivity.
  - rewrite ueqb_refl.
    replace (Unicode.eqb
               (Unicode.lit
                  "application/vnd.openxmlformats-officedocument.wordprocessingml.document")
               (Unicode.lit "application/pdf")) with false by reflexivity.
    reflexivity.
Qed.

(** X14. The text that [extract_text_from_file] returns is what the
    reader returned without the white space at its two ends, whatever
    the Unicode database counts as white space: what is taken away on
    the left and on the right is white space only, the first and the
    last code point that are left are not white space, and the text has
    a word unless it is empty. *)
Theorem X14_extracted_text_is_stripped (db : Unicode.database)
        (f : UExtractor.uploaded_file) (t : Unicode.text) :
  UExtractor.extract_text_from_file db f = Some t ->
  (exists raw l r,
     UExtractor.read_text f = Some raw
     /\ raw = l ++ t ++ r
     /\ forallb (Unicode.isspace db) l = true
     /\ forallb (Unicode.isspace db) r = true)
  /\ (forall c q, t = c :: q -> Unicode.isspace db c = false)
  /\ (forall q c, t = q ++ [c] -> Unicode.isspace db c = false)
  /\ (Unicode.count_words db t = 0 <-> t = []).
Proof.
  unfold UExtractor.extract_text_from_file. intros H.
  destruct (UExtractor.read_text f) as [raw|]; [|discriminate].
  injection H as <-.
  split; [|split; [|split]].
  - destruct (ulstrip_split db raw) as (l & Hl & Hls).
    destruct (urstrip_split db (Unicode.lstrip db raw)) as (r & Hr & Hrs).
    exists raw, l, r. split; [reflexivity|]. split; [|split; assumption].
    unfold Unicode.strip. rewrite <- Hr. exact Hl.
  - intros c q Hq. exact (ustrip_first db raw q c Hq).
  - intros q c Hq. exact (urstrip_last db _ q c Hq).
  - rewrite <- ustrip_empty_iff, ustrip_idempotent. reflexivity.
Qed.

Lemma X14_extracted_text_is_stripped_witness :
  (exists raw l r,
     UExtractor.read_text
       (UExtractor.MkFile (Unicode.lit "text/plain") None None
          (Some ([Unicode.nbsp] ++ Unicode.lit " a b " ++ [Unicode.nbsp]))) = Some raw
     /\ raw = l ++ Unicode.lit "a b" ++ r
     /\ forallb (Unicode.isspace Unicode.nbsp_db) l = true
     /\ forallb (Unicode.isspace Unicode.nbsp_db) r = true)
  /\ (forall c q, Unicode.lit "a b" = c :: q -> Unicode.isspace Unicode.nbsp_db c = false)
  /\ (forall q c, Unicode.lit "a b" = q ++ [c] -> Unicode.isspace Unicode.nbsp_db c = false)
  /\ (Unicode.count_words Unicode.nbsp_db (Unicode.lit "a b") = 0 <-> Unicode.lit "a b" = []).
Proof.
  apply (X14_extracted_text_is_stripped Unicode.nbsp_db
           (UExtractor.MkFile (Unicode.lit "text/plain") None None
              (Some ([Unicode.nbsp] ++ Unicode.lit " a b " ++ [Unicode.nbsp])))).
  vm_compute. reflexivity.
Defined.

Lemma ublank_lines (db : Unicode.database) (parts : list Unicode.text) :
  Unicode.isspace db 10%N = true ->
  Forall (fun part => forallb (Unicode.isspace db) part = true) parts ->
  Unicode.strip db (UExtractor.concat_lines parts) = [].
Proof.
  intros Hnl H. apply ustrip_empty_iff. rewrite (ucount_words_concat_lines db _ Hnl).
  induction H as [|p l Hp _ IH]; [reflexivity|].
  change (Unicode.count_words db p + list_sum (map (Unicode.count_words db) l) = 0).
  apply ucount_words_blank in Hp. now rewrite Hp, IH.
Qed.

(** X16. With a Unicode database for which the line feed is white
    space, a PDF or a DOCX file whose pages or paragraphs hold nothing
    but white space, or that has none, is reported as a file from which
    no text could be extracted; no analysis is made. *)
Theorem X16_blank_document (db : Unicode.database) (impl : sum_impl)
        (f : UExtractor.uploaded_file) (parts : list Unicode.text) :
  Unicode.isspace db 10%N = true ->
  (UExtractor.type f = Unicode.lit "application/pdf"
   /\ UExtractor.pdf_pages f = Some parts)
  \/ (UExtractor.type f
      = Unicode.lit "application/vnd.openxmlformats-officedocument.wordprocessingml.document"
      /\ UExtractor.docx_paragraphs f = Some parts) ->
  Forall (fun part => forallb (Unicode.isspace db) part = true) parts ->
  UPage.analyze_upload db impl f = UPage.CouldNotExtract.
Proof.
  intros Hnl Hf Hblank.
  unfold UPage.analyze_upload, UExtractor.extract_text_from_file.
  rewrite (uread_document f parts Hf). cbn [option_map].
  rewrite (ublank_lines db parts Hnl Hblank). reflexivity.
Qed.

Lemma X16_blank_document_witness :
  UPage.analyze_upload Unicode.nbsp_db LeftToRight
    (UExtractor.MkFile
       (Unicode.lit "application/vnd.openxmlformats-officedocument.wordprocessingml.document")
       None (Some [[Unicode.nbsp]]) None)
  = UPage.CouldNotExtract.
Proof.
  apply (X16_blank_document Unicode.nbsp_db LeftToRight _ [[Unicode.nbsp]]).
  - reflexivity.
  - right. split; reflexivity.
  - repeat constructor.
Defined.

(** X17. With a Unicode database for which the line feed is white
    space, the line feed that the extraction puts after every page or
    paragraph keeps the words apart: the extracted text of a PDF or a
    DOCX file has as many words as its pages or paragraphs have
    together. *)
Theorem X17_words_of_pages (db : Unicode.database) (f : UExtractor.uploaded_file)
        (parts : list Unicode.text) :
  Unicode.isspace db 10%N = true ->
  (UExtractor.type f = Unicode.lit "application/pdf"
   /\ UExtractor.pdf_pages f = Some parts)
  \/ (UExtractor.type f
      = Unicode.lit "application/vnd.openxmlformats-officedocument.wordprocessingml.document"
      /\ UExtractor.docx_paragraphs f = Some parts) ->
  exists t,
    UExtractor.extract_text_from_file db f = Some t
    /\ Unicode.count_words db t = list_sum (map (Unicode.count_words db) parts).
Proof.
  intros Hnl Hf. exists (Unicode.strip db (UExtractor.concat_lines parts)). split.
  - unfold UExtractor.extract_text_from_file. now rewrite (uread_document f parts Hf).
  - rewrite ucount_words_strip. now apply ucount_words_concat_lines.
Qed.

Lemma X17_words_of_pages_witness :
  exists t,
    UExtractor.extract_text_from_file Unicode.nbsp_db
      (UExtractor.MkFile (Unicode.lit "application/pdf")
         (Some [Unicode.lit "one" ++ [Unicode.nbsp] ++ Unicode.lit "two"; Unicode.lit "three"])
         None None)
    = Some t
    /\ Unicode.count_words Unicode.nbsp_db t
       = list_sum (map (Unicode.count_words Unicode.nbsp_db)
                       [Unicode.lit "one" ++ [Unicode.nbsp] ++ Unicode.lit "two";
                        Unicode.lit "three"]).
Proof.
  apply X17_words_of_pages.
  - reflexivity.
  - left. split; reflexivity.
Defined.
